(** * Lark front end: option validation and parser construction

    A shallow embedding of [lark/lark.py]: the [LarkOptions] validator and
    the [Lark] facade ([__init__], [_build_lexer], [_build_parser], [lex],
    [parse]).  The modules the facade imports ([load_grammar], [lexer],
    [parse_tree_builder], [parser_frontends], [tree]) are collaborators: they
    are taken as an interface, and every call to them is recorded in a trace
    so that "was never invoked" can be stated. *)

From stdpp Require Import base option list strings gmap fin_maps fin_sets.

Local Open Scope list_scope.

(** ** Python values, truth, exceptions *)

Module Py.

(** An object the model does not look inside: its identity and the answer
    of Python's truth protocol ([__bool__] / [__len__], [True] when neither
    is defined). *)
Record obj := Obj { obj_id : nat; obj_truth : bool }.

Inductive val :=
| VNone
| VBool (b : bool)
| VInt (z : Z)
| VStr (s : string)
| VObj (o : obj).

(** [bool(v)], also the test of [if v:]. *)
Definition truthy (v : val) : bool :=
  match v with
  | VNone => false
  | VBool b => b
  | VInt z => negb (Z.eqb z 0)
  | VStr s => negb (String.eqb s EmptyString)
  | VObj o => obj_truth o
  end.

(** [v == s] for a string literal [s]. *)
Definition eq_str (v : val) (s : string) : bool :=
  match v with
  | VStr s' => String.eqb s' s
  | _ => false
  end.

(** [isinstance(v, STRING_TYPE)] *)
Definition is_string (v : val) : bool :=
  match v with VStr _ => true | _ => false end.

(** The text of an exception: a literal, or a ["...%s" % keys] format whose
    argument is a list of dictionary keys (its [repr] differs between
    Python 2 and 3, so the argument is kept beside the format). *)
Inductive message :=
| Plain (text : string)
| Format (fmt : string) (keys : list string).

Inductive exn :=
| AssertionError
| ValueError (m : message)
| NotImplementedError (m : message)
| AttributeError (attr : string)
| TypeError
| KeyError (k : string)
| Foreign (name : string) (position : nat).   (* raised inside a collaborator *)

Inductive outcome (A : Type) :=
| Return (a : A)
| Raise (e : exn).
Arguments Return {A} a.
Arguments Raise {A} e.

End Py.
Export Py.

(** A Python dict with string keys, as keyword arguments always are. *)
Abbreviation pydict := (gmap string val).
Abbreviation loc := nat.

(** ** Data exchanged with the collaborators *)

(** One entry of [self.tokens], as [_build_lexer] destructures it:
    [(name, value, flags)]. *)
Record TokenDef := mkTokenDef {
  td_name : string;
  td_value : string;
  td_flags : list string
}.

(** Modelled from the spec: the runtime [Token] of [lexer.py] (absent from the
    sources): its type, its matched text and its start offset. *)
Record Token := mkToken {
  tok_type : string;
  tok_value : string;
  tok_start : nat
}.

(** What a generator of tokens amounts to once it is drained: the tokens it
    yields and, when it stops on an exception, that exception. *)
Record stream := mkStream {
  yielded : list Token;
  failure : option exn
}.

(** [list(s)] *)
Definition py_list (s : stream) : outcome (list Token) :=
  match failure s with
  | None => Return (yielded s)
  | Some e => Raise e
  end.

(** ** The collaborators

    Everything [lark.py] imports and calls but does not define.  A call may
    read and change the collaborators' own state [World] and may raise.  None
    of them is ever handed the options dict, so that state is kept apart from
    the heap of dicts. *)

Class Collaborators := {
  World : Type;
  Rules : Type;
  Callback : Type;
  LexerObj : Type;
  EngineClass : Type;
  EngineObj : Type;
  BuilderObj : Type;
  ParserObj : Type;
  Value : Type;
  (** [tree.Tree], the default of the [tree_class] option *)
  Tree : val;
  (** [parser_frontends.ENGINE_DICT]: strategy name to engine class *)
  ENGINE_DICT : gmap string EngineClass;
  (** [load_grammar.load_grammar(grammar)] *)
  load_grammar : string -> World -> outcome (list TokenDef * Rules) * World;
  (** [lexer.Lexer(tokens, callbacks, ignore=...)] *)
  Lexer : list (string * string) -> pydict -> list string ->
          World -> outcome LexerObj * World;
  (** [lexer_obj.lex(text)] *)
  Lexer_lex : LexerObj -> string -> World -> outcome stream * World;
  (** [postlex.process(stream)], [postlex] being the caller's object *)
  postlex_process : val -> stream -> World -> outcome stream * World;
  (** [engine_class()] *)
  engine_new : EngineClass -> World -> outcome EngineObj * World;
  (** [parse_tree_builder.ParseTreeBuilder(tree_class)] *)
  ParseTreeBuilder : val -> World -> outcome BuilderObj * World;
  (** [builder.create_tree_builder(rules, transformer)] *)
  create_tree_builder : BuilderObj -> Rules -> val ->
                        World -> outcome (Rules * Callback) * World;
  (** [engine.build_parser(rules, callback, start)] *)
  build_parser : EngineObj -> Rules -> Callback -> val ->
                 World -> outcome ParserObj * World;
  (** [parser.parse(tokens)] *)
  parser_parse : ParserObj -> list Token -> World -> outcome Value * World
}.

(** Modelled from the spec: the lexer and the compiled parser of [lexer.py]
    and of the engines (absent from the sources) are immutable after
    construction, and a call owns whatever mutable state it needs.  So
    [lex] and [parse] answer from their arguments alone and leave the world
    as it is; everything else, the caller's post-lexer among it, is as in
    [C]. *)
Definition with_immutable_lexer_and_parser (C : Collaborators)
    (lex_of : @LexerObj C -> string -> outcome stream)
    (parse_of : @ParserObj C -> list Token -> outcome (@Value C))
    : Collaborators := {|
  World := @World C;
  Rules := @Rules C;
  Callback := @Callback C;
  LexerObj := @LexerObj C;
  EngineClass := @EngineClass C;
  EngineObj := @EngineObj C;
  BuilderObj := @BuilderObj C;
  ParserObj := @ParserObj C;
  Value := @Value C;
  Tree := @Tree C;
  ENGINE_DICT := @ENGINE_DICT C;
  load_grammar := @load_grammar C;
  Lexer := @Lexer C;
  Lexer_lex := fun lx text w => (lex_of lx text, w);
  postlex_process := @postlex_process C;
  engine_new := @engine_new C;
  ParseTreeBuilder := @ParseTreeBuilder C;
  create_tree_builder := @create_tree_builder C;
  build_parser := @build_parser C;
  parser_parse := fun p toks w => (parse_of p toks, w)
|}.

(** ** The machine: heap of dicts, collaborators' world, trace of calls *)

Section Machine.
Context `{Collaborators}.

Inductive event :=
| CallLoadGrammar (grammar : string)
| CallLexer (tokens : list (string * string)) (callbacks : pydict)
            (ignore : list string)
| CallEngine (cls : EngineClass)
| CallParseTreeBuilder (tree_class : val)
| CallCreateTreeBuilder (b : BuilderObj) (rules : Rules) (transformer : val)
| CallBuildParser (eng : EngineObj) (rules : Rules) (cb : Callback)
                  (start : val)
| CallLex (lx : LexerObj) (text : string)
| CallPostlex (postlex : val) (s : stream)
| CallParse (p : ParserObj) (toks : list Token).

Record state := State {
  heap : gmap loc pydict;
  world : World;
  trace : list event
}.

Definition M (A : Type) : Type := state -> outcome A * state.

Definition run {A} (m : M A) (s : state) : outcome A * state := m s.

Definition ret {A} (a : A) : M A := fun s => (Return a, s).

Definition bind {A B} (m : M A) (k : A -> M B) : M B :=
  fun s => match m s with
           | (Return a, s') => k a s'
           | (Raise e, s') => (Raise e, s')
           end.

Definition raise {A} (e : exn) : M A := fun s => (Raise e, s).

(** [assert c], with assertions on as they are unless the interpreter is
    started with [-O]. *)
Definition assert (c : bool) : M unit :=
  if c then ret tt else raise AssertionError.

(** [if c: body] *)
Definition when (c : bool) (body : M unit) : M unit :=
  if c then body else ret tt.

Definition lift {A} (r : outcome A) : M A := fun s => (r, s).

(** A call into a collaborator: logged, then run on the world. *)
Definition call {A} (ev : event) (f : World -> outcome A * World) : M A :=
  fun s => let '(r, w) := f (world s) in
           (r, State (heap s) w (trace s ++ [ev])).

(** *** Dict objects on the heap *)

(** [dict(src)]: a fresh dict with the same items. *)
Definition dict_copy (src : loc) : M loc :=
  fun s => match heap s !! src with
           | Some d =>
               let o := fresh (dom (heap s)) in
               (Return o, State (<[o := d]> (heap s)) (world s) (trace s))
           | None => (Raise TypeError, s)
           end.

(** A dict literal or a [**kwargs] dict: a fresh object. *)
Definition dict_new (d : pydict) : M loc :=
  fun s => let o := fresh (dom (heap s)) in
           (Return o, State (<[o := d]> (heap s)) (world s) (trace s)).

(** [o.pop(k, dflt)]: removes [k] from the dict at [o]. *)
Definition dict_pop (o : loc) (k : string) (dflt : val) : M val :=
  fun s => match heap s !! o with
           | Some d =>
               match d !! k with
               | Some v =>
                   (Return v,
                    State (<[o := delete k d]> (heap s)) (world s) (trace s))
               | None => (Return dflt, s)
               end
           | None => (Raise TypeError, s)
           end.

(** [bool(o)] for a dict: non-empty. *)
Definition dict_truthy (o : loc) : M bool :=
  fun s => match heap s !! o with
           | Some d => (Return (negb (bool_decide (d = ∅))), s)
           | None => (Raise TypeError, s)
           end.

(** [o.keys()] (the order of a Python 2 dict is unspecified; here the
    order of [map_to_list]). *)
Definition dict_keys (o : loc) : M (list string) :=
  fun s => match heap s !! o with
           | Some d => (Return (map_to_list d).*1, s)
           | None => (Raise TypeError, s)
           end.

End Machine.

Notation "x <- m ;; k" := (bind m (fun x => k))
  (at level 100, m at next level, right associativity,
   format "'[v' x  <-  m  ;;  '/' k ']'").
Notation "m ;;; k" := (bind m (fun _ => k))
  (at level 100, right associativity).

(** ** [class LarkOptions] *)

Module LarkOptions.

(** The attributes [__init__] sets on [self]. *)
Record t := mk {
  debug : bool;
  only_lex : bool;
  keep_all_tokens : bool;
  tree_class : val;
  cache_grammar : val;
  postlex : val;
  parser : val;
  transformer : val;
  start : val
}.

(** The option names [__init__] pops, in the order it pops them. *)
Definition names : list string :=
  ["debug"; "only_lex"; "keep_all_tokens"; "tree_class"; "cache_grammar";
   "postlex"; "parser"; "transformer"; "start"].

Definition earley_transformer_msg : message :=
  Plain "Cannot specify an auto-transformer when using the Earley algorithm. Please use your transformer on the resulting parse tree, or use a different algorithm (i.e. lalr)".

Definition unknown_options (keys : list string) : exn :=
  ValueError (Format "Unknown options: %s" keys).

Section defs.
Context `{Collaborators}.

(** [v in ENGINE_DICT]: the keys of the mapping are strategy names. *)
Definition in_ENGINE_DICT (v : val) : bool :=
  match v with
  | VStr name => bool_decide (is_Some (ENGINE_DICT !! name))
  | _ => false
  end.

(** [LarkOptions.__init__(self, options_dict)]; the result stands for
    [self], which exists only when no exception leaves the body. *)
Definition __init__ (options_dict : loc) : M t :=
  o <- dict_copy options_dict ;;
  debug <- dict_pop o "debug" (VBool false) ;;
  only_lex <- dict_pop o "only_lex" (VBool false) ;;
  keep_all_tokens <- dict_pop o "keep_all_tokens" (VBool false) ;;
  tree_class <- dict_pop o "tree_class" Tree ;;
  cache_grammar <- dict_pop o "cache_grammar" (VBool false) ;;
  postlex <- dict_pop o "postlex" VNone ;;
  parser <- dict_pop o "parser" (VStr "earley") ;;
  transformer <- dict_pop o "transformer" VNone ;;
  start <- dict_pop o "start" (VStr "start") ;;
  assert (in_ENGINE_DICT parser) ;;;
  when (eq_str parser "earley" && truthy transformer)
       (raise (ValueError earley_transformer_msg)) ;;;
  when (truthy keep_all_tokens)
       (raise (NotImplementedError (Plain "Not implemented yet!"))) ;;;
  rest <- dict_truthy o ;;
  when rest (keys <- dict_keys o ;; raise (unknown_options keys)) ;;;
  ret (mk (truthy debug) (truthy only_lex) (truthy keep_all_tokens)
          tree_class cache_grammar postlex parser transformer start).

End defs.
End LarkOptions.

(** ** [class Lark] *)

(** What a caller may pass as [grammar]: a plain string, an object with a
    [read] method, or any other object.  Of an object the constructor looks
    at three things: its [name] attribute, when it has one (a file opened
    from a descriptor has an integer there); whether [hash] accepts it; and
    what [read()] answers, a value or an exception. *)
Inductive grammar_arg :=
| GString (text : string)
| GFile (name : option val) (hashable : bool) (read : outcome val)
| GOther (self : val) (name : option val) (hashable : bool).

(** [grammar.name], when the attribute exists. *)
Definition grammar_name (g : grammar_arg) : option val :=
  match g with
  | GString _ => None
  | GFile name _ _ | GOther _ name _ => name
  end.

(** Whether [hash(grammar)] returns; for an unhashable object it raises. *)
Definition grammar_hashable (g : grammar_arg) : bool :=
  match g with
  | GString _ => true
  | GFile _ hashable _ | GOther _ _ hashable => hashable
  end.

Module Lark.
Section defs.
Context `{Collaborators}.

(** The attributes of a constructed [Lark]; the last three are set only
    when [only_lex] is false. *)
Record t := mk {
  options : LarkOptions.t;
  tokens : list TokenDef;
  rules : Rules;
  lexer : LexerObj;
  parser_engine : option EngineObj;
  parse_tree_builder : option BuilderObj;
  parser : option ParserObj
}.

(** The loop of [_build_lexer], with its two accumulators. *)
Fixpoint _build_lexer_loop (defs : list TokenDef)
    (ignore_tokens : list string) (tokens : list (string * string))
    : list string * list (string * string) :=
  match defs with
  | [] => (ignore_tokens, tokens)
  | mkTokenDef name value flags :: defs' =>
      let ignore_tokens :=
        if bool_decide ("ignore" ∈ flags) then ignore_tokens ++ [name]
        else ignore_tokens in
      _build_lexer_loop defs' ignore_tokens (tokens ++ [(name, value)])
  end.

(** [Lark._build_lexer(self)], reading [self.tokens]. *)
Definition _build_lexer (self_tokens : list TokenDef) : M LexerObj :=
  let '(ignore_tokens, tokens) := _build_lexer_loop self_tokens [] [] in
  call (CallLexer tokens ∅ ignore_tokens) (Lexer tokens ∅ ignore_tokens).

(** [Lark._build_parser(self)], reading [self.parse_tree_builder],
    [self.rules], [self.options] and [self.parser_engine]. *)
Definition _build_parser (self_options : LarkOptions.t)
    (self_rules : Rules) (self_parse_tree_builder : BuilderObj)
    (self_parser_engine : EngineObj) : M ParserObj :=
  let transformer := LarkOptions.transformer self_options in
  let start := LarkOptions.start self_options in
  built <-
    call (CallCreateTreeBuilder self_parse_tree_builder self_rules transformer)
         (create_tree_builder self_parse_tree_builder self_rules transformer) ;;
  let '(rules, callback) := built in
  call (CallBuildParser self_parser_engine rules callback start)
       (build_parser self_parser_engine rules callback start).

(** [ENGINE_DICT[name]] *)
Definition ENGINE_DICT_getitem (name : val) : M EngineClass :=
  match name with
  | VStr n =>
      match ENGINE_DICT !! n with
      | Some cls => ret cls
      | None => raise (KeyError n)
      end
  | _ => raise (KeyError EmptyString)
  end.

(** [hash(grammar)]: the number only feeds the local [cache_file], which is
    never read, so what is kept of the call is that it may raise. *)
Definition py_hash (grammar : grammar_arg) : M unit :=
  if grammar_hashable grammar then ret tt else raise TypeError.

(** [os.path.basename(source)], as Python 3 has it: [TypeError] for what is
    no path.  Its value, too, only feeds [cache_file]. *)
Definition os_path_basename (source : val) : M unit :=
  if is_string source then ret tt else raise TypeError.

(** [Lark.__init__], from the statement after [self.options = ...] to
    the end of the body. *)
Definition construct (grammar : grammar_arg) (self_options : LarkOptions.t)
    : M t :=
  (* try: source = grammar.name / except AttributeError: ... / else: ... *)
  match grammar_name grammar with
  | None => py_hash grammar
  | Some source => os_path_basename source
  end ;;;
  (* try: read = grammar.read / except AttributeError: pass / else: read() *)
  grammar <-
    match grammar with
    | GString text => ret (VStr text)
    | GFile _ _ read => lift read
    | GOther self _ _ => ret self
    end ;;
  assert (is_string grammar) ;;;
  when (truthy (LarkOptions.cache_grammar self_options))
       (raise (NotImplementedError (Plain "Not available yet"))) ;;;
  loaded <-
    match grammar with
    | VStr text => call (CallLoadGrammar text) (load_grammar text)
    | _ => raise TypeError
    end ;;
  let '(self_tokens, self_rules) := loaded in
  self_lexer <- _build_lexer self_tokens ;;
  if negb (LarkOptions.only_lex self_options) then
    cls <- ENGINE_DICT_getitem (LarkOptions.parser self_options) ;;
    self_parser_engine <- call (CallEngine cls) (engine_new cls) ;;
    let tree_class := LarkOptions.tree_class self_options in
    self_parse_tree_builder <-
      call (CallParseTreeBuilder tree_class) (ParseTreeBuilder tree_class) ;;
    self_parser <- _build_parser self_options self_rules
                     self_parse_tree_builder self_parser_engine ;;
    ret (mk self_options self_tokens self_rules self_lexer
            (Some self_parser_engine) (Some self_parse_tree_builder)
            (Some self_parser))
  else
    ret (mk self_options self_tokens self_rules self_lexer None None None).

(** [Lark.__init__(self, grammar, **options)]: the keyword arguments
    arrive as a fresh dict, and validating them is the first statement. *)
Definition __init__ (grammar : grammar_arg) (kwargs : pydict) : M t :=
  options <- dict_new kwargs ;;
  self_options <- LarkOptions.__init__ options ;;
  construct grammar self_options.

(** [Lark.lex(self, text)] *)
Definition lex (self : t) (text : string) : M stream :=
  stream <- call (CallLex (lexer self) text) (Lexer_lex (lexer self) text) ;;
  let postlex := LarkOptions.postlex (options self) in
  if truthy postlex then
    call (CallPostlex postlex stream) (postlex_process postlex stream)
  else
    ret stream.

(** [Lark.parse(self, text)] *)
Definition parse (self : t) (text : string) : M Value :=
  assert (negb (LarkOptions.only_lex (options self))) ;;;
  stream <- lex self text ;;
  l <- lift (py_list stream) ;;
  match parser self with
  | Some p => call (CallParse p l) (parser_parse p l)
  | None => raise (AttributeError "parser")
  end.

End defs.
End Lark.

(** ** What [LarkOptions.__init__] computes *)

Section Options.
Context `{Collaborators}.

(** The value [o.pop(k, dflt)] finds for a recognised option. *)
Definition option_value (d : pydict) (k : string) (dflt : val) : val :=
  default dflt (d !! k).

(** The dict [o] once every recognised name has been popped. *)
Definition unpopped (d : pydict) : pydict :=
  foldl (fun acc k => delete k acc) d LarkOptions.names.

(** The checks of [__init__] in their order, on the items of the caller's
    dict. *)
Definition verdict (d : pydict) : outcome LarkOptions.t :=
  let parser := option_value d "parser" (VStr "earley") in
  let transformer := option_value d "transformer" VNone in
  let keep_all_tokens := option_value d "keep_all_tokens" (VBool false) in
  if negb (LarkOptions.in_ENGINE_DICT parser) then Raise AssertionError
  else if eq_str parser "earley" && truthy transformer then
    Raise (ValueError LarkOptions.earley_transformer_msg)
  else if truthy keep_all_tokens then
    Raise (NotImplementedError (Plain "Not implemented yet!"))
  else if negb (bool_decide (unpopped d = ∅)) then
    Raise (LarkOptions.unknown_options (map_to_list (unpopped d)).*1)
  else
    Return (LarkOptions.mk
              (truthy (option_value d "debug" (VBool false)))
              (truthy (option_value d "only_lex" (VBool false)))
              (truthy keep_all_tokens)
              (option_value d "tree_class" Tree)
              (option_value d "cache_grammar" (VBool false))
              (option_value d "postlex" VNone)
              parser transformer
              (option_value d "start" (VStr "start"))).

End Options.

(** ** Vocabulary of the properties *)

Section Vocabulary.
Context `{Collaborators}.

(** The caller passes a transformer: the [transformer] option holds an
    object ([None] stands for no transformer). *)
Definition supplies_transformer (kw : pydict) : Prop :=
  exists o, kw !! "transformer" = Some (VObj o).

(** The caller passes a transformer that counts as true, which is what
    [if ... and self.transformer] asks: every object does, unless its class
    defines [__bool__] or [__len__] otherwise. *)
Definition supplies_true_transformer (kw : pydict) : Prop :=
  exists t, kw !! "transformer" = Some t /\ truthy t = true.

(** The caller names the engine. *)
Definition selects (kw : pydict) (name : string) : Prop :=
  kw !! "parser" = Some (VStr name).

(** The strategy name is a key of [ENGINE_DICT]. *)
Definition registered (name : val) : Prop :=
  LarkOptions.in_ENGINE_DICT name = true.

(** Some key of the dict is not an option name. *)
Definition has_unknown_key (kw : pydict) : Prop :=
  exists k, k ∈ dom kw /\ k ∉ LarkOptions.names.

(** The exceptions with which option validation rejects a configuration. *)
Definition configuration_error (e : exn) : Prop :=
  match e with
  | AssertionError | ValueError _ | NotImplementedError _ => True
  | _ => False
  end.

(** Neither [hash(grammar)] nor [os.path.basename(grammar.name)] raises. *)
Definition grammar_named_well (g : grammar_arg) : bool :=
  match grammar_name g with
  | None => grammar_hashable g
  | Some source => is_string source
  end.

(** What the local [grammar] holds once a file-like object is drained. *)
Definition grammar_value (g : grammar_arg) : outcome val :=
  match g with
  | GString text => Return (VStr text)
  | GFile _ _ read => read
  | GOther self _ _ => Return self
  end.

(** The statements of [construct] that look at the grammar, summed up: the
    string they end with, or the exception they raise. *)
Definition grammar_result (g : grammar_arg) : outcome string :=
  if grammar_named_well g then
    match grammar_value g with
    | Return (VStr text) => Return text
    | Return _ => Raise AssertionError
    | Raise e => Raise e
    end
  else Raise TypeError.

(** The string [construct] hands to [load_grammar], when there is one. *)
Definition grammar_text (g : grammar_arg) : option string :=
  match grammar_result g with
  | Return text => Some text
  | Raise _ => None
  end.

(** The ways the grammar argument makes [construct] raise. *)
Inductive grammar_raises (g : grammar_arg) : exn -> Prop :=
| unhashable_grammar :
    grammar_name g = None -> grammar_hashable g = false ->
    grammar_raises g TypeError
| name_is_no_path source :
    grammar_name g = Some source -> is_string source = false ->
    grammar_raises g TypeError
| read_raises e :
    grammar_named_well g = true -> grammar_value g = Raise e ->
    grammar_raises g e
| grammar_is_no_string v :
    grammar_named_well g = true -> grammar_value g = Return v ->
    is_string v = false ->
    grammar_raises g AssertionError.

(** The two arguments [_build_lexer] passes to [Lexer], said directly. *)
Definition lexer_patterns (defs : list TokenDef) : list (string * string) :=
  (fun d => (td_name d, td_value d)) <$> defs.

Definition lexer_ignore (defs : list TokenDef) : list string :=
  td_name <$> filter (fun d => "ignore" ∈ td_flags d) defs.

(** The engine classes instantiated, and the engines whose build routine
    ran, along a trace. *)
Definition engine_calls (tr : list event) : list EngineClass :=
  omap (fun ev => match ev with CallEngine cls => Some cls | _ => None end) tr.

Definition build_calls (tr : list event) : list EngineObj :=
  omap (fun ev => match ev with
                  | CallBuildParser eng _ _ _ => Some eng
                  | _ => None
                  end) tr.

(** The heap once [Lark.__init__] has validated its keyword arguments: the
    [**options] dict and the copy [LarkOptions.__init__] popped from. *)
Definition validated (h : gmap loc pydict) (kw : pydict) : gmap loc pydict :=
  let h1 := <[fresh (dom h) := kw]> h in
  <[fresh (dom h1) := unpopped kw]> h1.


(** Neither an engine class was instantiated nor a build routine run. *)
Definition no_dispatch (evs : list event) : Prop :=
  engine_calls evs = [] /\ build_calls evs = [].

(** The calls name at most one engine: the class [ENGINE_DICT] holds for
    the [parser] option, instantiated once, and at most one build. *)
Definition dispatch_once (o : LarkOptions.t) (evs : list event) : Prop :=
  no_dispatch evs \/
  exists name cls,
    LarkOptions.parser o = VStr name /\ ENGINE_DICT !! name = Some cls /\
    engine_calls evs = [cls] /\ length (build_calls evs) <= 1.

(** Whatever the start state and the outcome, a run of [m] adds to the
    trace a list of calls that satisfies [P]. *)
Definition appends {A} (P : list event -> Prop) (m : M A) : Prop :=
  forall s, exists evs, trace (run m s).2 = trace s ++ evs /\ P evs.

(** Whatever the start state and the outcome, a run of [m] leaves every
    dict as it was. *)
Definition heap_stable {A} (m : M A) : Prop :=
  forall s, heap (run m s).2 = heap s.

(** The value of the [parser] option: the caller's, or the default. *)
Definition engine_name (kw : pydict) : val :=
  option_value kw "parser" (VStr "earley").

(** The three configurations the validation is there to refuse. *)
Inductive illegal (kw : pydict) : Prop :=
| transformer_with_earley :
    supplies_transformer kw -> engine_name kw = VStr "earley" -> illegal kw
| unrecognized_engine :
    ~ registered (engine_name kw) -> illegal kw
| unrecognized_option :
    has_unknown_key kw -> illegal kw.

(** The same three as the checks see them: the transformer counts only
    when it is true-valued. *)
Inductive refused (kw : pydict) : Prop :=
| true_transformer_with_earley :
    supplies_true_transformer kw -> engine_name kw = VStr "earley" -> refused kw
| engine_not_registered :
    ~ registered (engine_name kw) -> refused kw
| option_not_known :
    has_unknown_key kw -> refused kw.

(** [Lark(grammar, **kw)] started in [s] raises [e] out of the validation
    of its options: no collaborator has been called, and
    [LarkOptions(d)] on a dict with the same items raises the same. *)
Definition rejects (g : grammar_arg) (kw : pydict) (s : state) (e : exn)
    : Prop :=
  (run (Lark.__init__ g kw) s).1 = Raise e /\
  trace (run (Lark.__init__ g kw) s).2 = trace s /\
  world (run (Lark.__init__ g kw) s).2 = world s /\
  forall l, heap s !! l = Some kw ->
    (run (LarkOptions.__init__ l) s).1 = Raise e /\
    trace (run (LarkOptions.__init__ l) s).2 = trace s.

(** The exception is the "Unknown options" error and lists exactly the
    keys of [kw] that are no option names. *)
Definition reports_unknown_keys (kw : pydict) (e : exn) : Prop :=
  exists keys,
    e = LarkOptions.unknown_options keys /\ NoDup keys /\
    forall k, k ∈ keys <-> k ∈ dom kw /\ k ∉ LarkOptions.names.

End Vocabulary.

(** ** The lexer's contract *)

Module SpecLexer.
Section scan.
(** How a pattern is matched against the text that remains: the length
    of its match at the current offset, if it matches there. *)
Variable match_at : string -> string -> option nat.

(** Modelled from the spec: the matching policy of [lexer.Lexer] (absent
    from the sources).  All patterns are tried at the offset; the longest
    match wins and, on a tie, the pattern declared earlier.  A match
    consumes at least one character. *)
Fixpoint best_match (patterns : list (string * string)) (text : string)
    : option (string * nat) :=
  match patterns with
  | [] => None
  | (name, pattern) :: later =>
      match match_at pattern text with
      | Some (S n) =>
          match best_match later text with
          | Some (name', n') =>
              if Nat.ltb (S n) n' then Some (name', n') else Some (name, S n)
          | None => Some (name, S n)
          end
      | _ => best_match later text
      end
  end.

(** Modelled from the spec: [Lexer.lex] of [lexer.py] (absent from the
    sources), drained.  At the end of the text the stream ends; where no
    pattern matches it stops on [UnexpectedCharacter] at that offset;
    otherwise the best match is consumed, and yielded unless its name is
    in the ignore list.  [fuel] bounds the number of matches. *)
Fixpoint scan (fuel : nat) (patterns : list (string * string))
    (ignore : list string) (text : string) (offset : nat) : stream :=
  match fuel with
  | 0 => mkStream [] None
  | S fuel' =>
      if bool_decide (text = EmptyString) then mkStream [] None
      else
        match best_match patterns text with
        | None => mkStream [] (Some (Foreign "UnexpectedCharacter" offset))
        | Some (name, n) =>
            let rest :=
              scan fuel' patterns ignore
                   (String.substring n (String.length text - n) text) (offset + n) in
            if bool_decide (name ∈ ignore) then rest
            else mkStream (mkToken name (String.substring 0 n text) offset :: yielded rest)
                          (failure rest)
        end
  end.

(** One match consumes at least one character, so the length of the text
    is fuel enough. *)
Definition lex (patterns : list (string * string)) (ignore : list string)
    (text : string) : stream :=
  scan (String.length text) patterns ignore text 0.

End scan.

(** A literal pattern matches where it is a prefix of the remaining text. *)
Definition literal (pattern text : string) : option nat :=
  if String.prefix pattern text then Some (String.length pattern) else None.

End SpecLexer.

(** ** A concrete set of collaborators

    Small enough to run: the engine mapping the documentation describes, a
    grammar loader with one fixed grammar, the lexer of the contract above on
    literal patterns, and a parser that accepts one sequence of token types.
    The world is one flag, owned by a post-lexer that keeps state between
    calls. *)

Module Demo.

Inductive engine := LALR | Earley.

(** Modelled from the spec: [ENGINE_DICT] of [parser_frontends.py] (absent
    from the sources) maps the strategy names "lalr" and "earley" to their
    engines, as [OPTIONS_DOC] also lists them. *)
Definition engines : gmap string engine :=
  <["lalr" := LALR]> (<["earley" := Earley]> ∅).

Record lexer := mkLexer {
  lx_patterns : list (string * string);
  lx_ignore : list string
}.

Record parser := mkParser {
  p_engine : engine;
  p_body : list string      (* the token types the start rule expects *)
}.

(** The grammar [start: A B] with [A: "a"], [B: "b"] and ignored blanks. *)
Definition tokens : list TokenDef :=
  [mkTokenDef "A" "a" []; mkTokenDef "B" "b" [];
   mkTokenDef "WS" " " ["ignore"]].

Definition load (text : string) (w : bool)
    : outcome (list TokenDef * list string) * bool :=
  if bool_decide (text = EmptyString) then (Raise (Foreign "GrammarError" 0), w)
  else (Return (tokens, ["A"; "B"]), w).

Definition scan_text (lx : lexer) (text : string) (w : bool)
    : outcome stream * bool :=
  (Return (SpecLexer.lex SpecLexer.literal (lx_patterns lx) (lx_ignore lx) text), w).

Definition skip_header_once : val := VObj (Obj 2 true).

Definition process (postlex : val) (s : stream) (w : bool)
    : outcome stream * bool :=
  match postlex with
  | VObj (Obj 1 _) => (Return s, w)
  | VObj (Obj 2 _) =>
      if w then (Return s, w)
      else (Return (mkStream (tail (yielded s)) (failure s)), true)
  | _ => (Raise (AttributeError "process"), w)
  end.

Definition accept (p : parser) (toks : list Token) (w : bool)
    : outcome (list Token) * bool :=
  if bool_decide (tok_type <$> toks = p_body p) then (Return toks, w)
  else (Raise (Foreign "UnexpectedToken" (length toks)), w).

Definition collaborators : Collaborators := {|
  World := bool;
  Rules := list string;
  Callback := val;
  LexerObj := lexer;
  EngineClass := engine;
  EngineObj := engine;
  BuilderObj := val;
  ParserObj := parser;
  Value := list Token;
  Tree := VObj (Obj 0 true);
  ENGINE_DICT := engines;
  load_grammar := load;
  Lexer := fun toks _ ignore w => (Return (mkLexer toks ignore), w);
  Lexer_lex := scan_text;
  postlex_process := process;
  engine_new := fun cls w => (Return cls, w);
  ParseTreeBuilder := fun tree_class w => (Return tree_class, w);
  create_tree_builder := fun _ rules transformer w => (Return (rules, transformer), w);
  build_parser := fun eng rules _ _ w => (Return (mkParser eng rules), w);
  parser_parse := accept
|}.

(** The same collaborators, their lexer and parser given as the functions
    they are. *)
Definition immutable : Collaborators :=
  with_immutable_lexer_and_parser collaborators
    (fun lx text =>
       Return (SpecLexer.lex SpecLexer.literal (lx_patterns lx) (lx_ignore lx) text))
    (fun p toks =>
       if bool_decide (tok_type <$> toks = p_body p) then Return toks
       else Raise (Foreign "UnexpectedToken" (length toks))).

(** A transformer object, as a caller would pass one. *)
Definition a_transformer : val := VObj (Obj 9 true).

(** A fresh interpreter: no dict yet, the post-lexer's flag down, no call
    made. *)
Definition boot : @state collaborators := @State collaborators ∅ false [].

Definition grammar : grammar_arg := GString "start: A B".

(** Keyword arguments a caller might write. *)
Definition kw_lalr : pydict := <["parser" := VStr "lalr"]> ∅.

Definition kw_earley_transformer : pydict :=
  <["parser" := VStr "earley"]> (<["transformer" := a_transformer]> ∅).

Definition kw_transformer : pydict := <["transformer" := a_transformer]> ∅.

Definition kw_lalr_transformer : pydict :=
  <["parser" := VStr "lalr"]> (<["transformer" := a_transformer]> ∅).

Definition kw_glr : pydict := <["parser" := VStr "glr"]> ∅.

Definition kw_colour : pydict :=
  <["parser" := VStr "lalr"]> (<["colour" := VInt 1]> ∅).

Definition kw_keep_colour : pydict :=
  <["keep_all_tokens" := VBool true]> (<["colour" := VInt 1]> ∅).

Definition kw_keep : pydict :=
  <["parser" := VStr "lalr"]> (<["keep_all_tokens" := VBool true]> ∅).

Definition kw_keep_transformer : pydict :=
  <["keep_all_tokens" := VBool true]> (<["transformer" := a_transformer]> ∅).

Definition kw_skip_header : pydict :=
  <["parser" := VStr "lalr"]> (<["postlex" := skip_header_once]> ∅).

(** A transformer whose class defines [__len__] and which is empty: an
    object that counts as false. *)
Definition an_empty_transformer : val := VObj (Obj 8 false).

Definition kw_earley_empty_transformer : pydict :=
  <["parser" := VStr "earley"]> (<["transformer" := an_empty_transformer]> ∅).

Definition kw_empty_transformer : pydict :=
  <["transformer" := an_empty_transformer]> ∅.

Definition kw_lalr_only_lex : pydict :=
  <["parser" := VStr "lalr"]> (<["only_lex" := VBool true]> ∅).


End Demo.

(** ** Vocabulary of the further properties *)

Section Pipeline.
Context `{Collaborators}.

(** The four checks of the validation all pass. *)
Definition legal (kw : pydict) : Prop :=
  registered (engine_name kw) /\
  eq_str (engine_name kw) "earley"
    && truthy (option_value kw "transformer" VNone) = false /\
  truthy (option_value kw "keep_all_tokens" (VBool false)) = false /\
  forall k, k ∈ dom kw -> k ∈ LarkOptions.names.

(** The attributes [LarkOptions.__init__] sets for the items [kw]: each
    option is the caller's value or its default, and the three flags go
    through [bool()]. *)
Definition attributes (kw : pydict) : LarkOptions.t :=
  LarkOptions.mk
    (truthy (option_value kw "debug" (VBool false)))
    (truthy (option_value kw "only_lex" (VBool false)))
    (truthy (option_value kw "keep_all_tokens" (VBool false)))
    (option_value kw "tree_class" Tree)
    (option_value kw "cache_grammar" (VBool false))
    (option_value kw "postlex" VNone)
    (option_value kw "parser" (VStr "earley"))
    (option_value kw "transformer" VNone)
    (option_value kw "start" (VStr "start")).

(** The place of a call in the body of [Lark.__init__]. *)
Definition call_rank (ev : event) : nat :=
  match ev with
  | CallLoadGrammar _ => 0
  | CallLexer _ _ _ => 1
  | CallEngine _ => 2
  | CallParseTreeBuilder _ => 3
  | CallCreateTreeBuilder _ _ _ => 4
  | CallBuildParser _ _ _ _ => 5
  | CallLex _ _ => 6
  | CallPostlex _ _ => 7
  | CallParse _ _ => 8
  end.

(** The calls [evs] are those of ranks [n], [n+1], ... in that order, and
    stop before rank [bound]. *)
Definition in_order (n bound : nat) (evs : list event) : Prop :=
  call_rank <$> evs = seq n (length evs) /\ n + length evs <= bound.

(** How many collaborators a construction with these options calls: it
    stops after [Lexer] when [only_lex] is set. *)
Definition call_budget (o : LarkOptions.t) : nat :=
  if LarkOptions.only_lex o then 2 else 6.

(** The exception, if any, with which the call recorded as [ev] answers in
    the world [w]. *)
Definition call_raises (ev : event) (w : World) : option exn :=
  let raised {A} (r : outcome A * World) :=
    match r.1 with Raise e => Some e | Return _ => None end in
  match ev with
  | CallLoadGrammar g => raised (load_grammar g w)
  | CallLexer tokens callbacks ignore => raised (Lexer tokens callbacks ignore w)
  | CallEngine cls => raised (engine_new cls w)
  | CallParseTreeBuilder tree_class => raised (ParseTreeBuilder tree_class w)
  | CallCreateTreeBuilder b rules transformer =>
      raised (create_tree_builder b rules transformer w)
  | CallBuildParser eng rules cb start => raised (build_parser eng rules cb start w)
  | CallLex lx text => raised (Lexer_lex lx text w)
  | CallPostlex postlex st => raised (postlex_process postlex st w)
  | CallParse p toks => raised (parser_parse p toks w)
  end.

(** The world in which the call recorded as [ev] leaves the collaborators,
    started in the world [w]. *)
Definition call_world (ev : event) (w : World) : World :=
  match ev with
  | CallLoadGrammar g => (load_grammar g w).2
  | CallLexer tokens callbacks ignore => (Lexer tokens callbacks ignore w).2
  | CallEngine cls => (engine_new cls w).2
  | CallParseTreeBuilder tree_class => (ParseTreeBuilder tree_class w).2
  | CallCreateTreeBuilder b rules transformer =>
      (create_tree_builder b rules transformer w).2
  | CallBuildParser eng rules cb start => (build_parser eng rules cb start w).2
  | CallLex lx text => (Lexer_lex lx text w).2
  | CallPostlex postlex st => (postlex_process postlex st w).2
  | CallParse p toks => (parser_parse p toks w).2
  end.

(** The world after the calls [evs], made one after the other from [w]. *)
Definition replay (evs : list event) (w : World) : World :=
  foldl (fun w ev => call_world ev w) w evs.

(** The exception [e] that ends the run from [s] to [s'] is the one a
    collaborator raised: the calls made are [evs] and then [ev], a call of
    the constructor's body; the calls [evs] all returned; and [ev], run in
    the world they left, raised [e] and left the world of [s']. *)
Definition blames (s s' : state) (e : exn) : Prop :=
  exists evs ev,
    trace s' = trace s ++ evs ++ [ev] /\ call_rank ev < 6 /\
    (forall i ev', evs !! i = Some ev' ->
       call_raises ev' (replay (take i evs) (world s)) = None) /\
    call_raises ev (replay evs (world s)) = Some e /\
    world s' = call_world ev (replay evs (world s)).

(** The same options, and the same [Lark], with another [debug] flag. *)
Definition with_debug (b : bool) (o : LarkOptions.t) : LarkOptions.t :=
  LarkOptions.mk b (LarkOptions.only_lex o) (LarkOptions.keep_all_tokens o)
    (LarkOptions.tree_class o) (LarkOptions.cache_grammar o)
    (LarkOptions.postlex o) (LarkOptions.parser o) (LarkOptions.transformer o)
    (LarkOptions.start o).

Definition Lark_with_debug (b : bool) (L : Lark.t) : Lark.t :=
  Lark.mk (with_debug b (Lark.options L)) (Lark.tokens L) (Lark.rules L)
    (Lark.lexer L) (Lark.parser_engine L) (Lark.parse_tree_builder L)
    (Lark.parser L).

(** [m1] does what [m2] does, whatever dicts the heap holds: started in the
    same world with the same trace, they make the same calls, leave the same
    world, raise the same exception, and where [m2] returns [b], [m1]
    returns [f b]. *)
Definition mirrors {A B} (f : B -> A) (m1 : M A) (m2 : M B) : Prop :=
  forall h1 h2 w tr,
    (run m1 (State h1 w tr)).1
    = match (run m2 (State h2 w tr)).1 with
      | Return b => Return (f b)
      | Raise e => Raise e
      end /\
    world (run m1 (State h1 w tr)).2 = world (run m2 (State h2 w tr)).2 /\
    trace (run m1 (State h1 w tr)).2 = trace (run m2 (State h2 w tr)).2.

(** [m] adds exactly the calls [evs] to the trace, whatever its outcome. *)
Definition logs {A} (evs : list event) (m : M A) : Prop :=
  appends (fun evs' => evs' = evs) m.

End Pipeline.

(** * Proofs *)

(** ** Running the machine: equations *)

Section Run.
Context `{Collaborators}.

Lemma run_ret {A} (a : A) s : run (ret a) s = (Return a, s).
Proof. reflexivity. Qed.

Lemma run_raise {A} e s : run (raise (A:=A) e) s = (Raise e, s).
Proof. reflexivity. Qed.

Lemma run_bind_Return {A B} (m : M A) (k : A -> M B) s a s' :
  run m s = (Return a, s') -> run (bind m k) s = run (k a) s'.
Proof. unfold run, bind. intros ->. reflexivity. Qed.

Lemma run_bind_ret_l {A B} (a : A) (k : A -> M B) : bind (ret a) k = k a.
Proof. reflexivity. Qed.

Lemma run_bind_raise_l {A B} e (k : A -> M B) : bind (raise e) k = raise e.
Proof. reflexivity. Qed.

Lemma run_bind_Raise {A B} (m : M A) (k : A -> M B) s e s' :
  run m s = (Raise e, s') -> run (bind m k) s = (Raise e, s').
Proof. unfold run, bind. intros ->. reflexivity. Qed.

(** A successful [bind] splits into its two halves. *)
Lemma run_bind_inv {A B} (m : M A) (k : A -> M B) s b s' :
  run (bind m k) s = (Return b, s') ->
  exists a s1, run m s = (Return a, s1) /\ run (k a) s1 = (Return b, s').
Proof.
  unfold run, bind. destruct (m s) as [[a|e] s1]; intros Hr.
  - exists a, s1. split; [reflexivity | exact Hr].
  - discriminate Hr.
Qed.

Lemma run_assert_true s : run (assert true) s = (Return tt, s).
Proof. reflexivity. Qed.

Lemma run_assert_false s : run (assert false) s = (Raise AssertionError, s).
Proof. reflexivity. Qed.

Lemma run_dict_copy h w tr l d :
  h !! l = Some d ->
  run (dict_copy l) (State h w tr)
  = (Return (fresh (dom h)), State (<[fresh (dom h) := d]> h) w tr).
Proof. unfold run, dict_copy. simpl. intros ->. reflexivity. Qed.

(** Popping from the dict at [o] rewrites that cell and nothing else. *)
Lemma run_dict_pop h w tr o d k dflt :
  run (dict_pop o k dflt) (State (<[o := d]> h) w tr)
  = (Return (default dflt (d !! k)), State (<[o := delete k d]> h) w tr).
Proof.
  unfold run, dict_pop. simpl. rewrite lookup_insert_eq.
  destruct (d !! k) as [v|] eqn:Hk; simpl.
  - by rewrite insert_insert_eq.
  - by rewrite delete_id.
Qed.

Lemma run_dict_truthy h w tr o d :
  run (dict_truthy o) (State (<[o := d]> h) w tr)
  = (Return (negb (bool_decide (d = ∅))), State (<[o := d]> h) w tr).
Proof. unfold run, dict_truthy. simpl. by rewrite lookup_insert_eq. Qed.

Lemma run_dict_keys h w tr o d :
  run (dict_keys o) (State (<[o := d]> h) w tr)
  = (Return (map_to_list d).*1, State (<[o := d]> h) w tr).
Proof. unfold run, dict_keys. simpl. by rewrite lookup_insert_eq. Qed.

End Run.

Section OptionsFacts.
Context `{Collaborators}.

Lemma unpopped_lookup (d : pydict) (k : string) :
  unpopped d !! k = if decide (k ∈ LarkOptions.names) then None else d !! k.
Proof.
  unfold unpopped, LarkOptions.names. simpl.
  case_decide as Hk.
  - repeat (apply elem_of_cons in Hk as [-> | Hk];
            [ repeat (rewrite lookup_delete_eq || (rewrite lookup_delete_ne by done));
              reflexivity | ]).
    by apply elem_of_nil in Hk.
  - repeat (rewrite lookup_delete_ne; [ | intros <-; apply Hk; set_solver ]).
    reflexivity.
Qed.

Lemma unpopped_dom_names (d : pydict) (k : string) :
  k ∈ dom (unpopped d) <-> k ∈ dom d /\ k ∉ LarkOptions.names.
Proof.
  rewrite !elem_of_dom, unpopped_lookup.
  case_decide; split; try tauto.
  intros [? ?]. discriminate.
Qed.

Lemma unpopped_dom (d : pydict) :
  dom (unpopped d) = dom d ∖ list_to_set LarkOptions.names.
Proof.
  apply set_eq. intros k.
  rewrite elem_of_dom, unpopped_lookup, elem_of_difference, elem_of_dom,
    elem_of_list_to_set.
  case_decide; split; try tauto.
  intros [? ?]. discriminate.
Qed.

End OptionsFacts.

Section OptionsRun.
Context `{Collaborators}.

(** One run of [LarkOptions.__init__]: the outcome is [verdict] of the
    caller's items, and the only cell written is the fresh copy. *)
Lemma LarkOptions_init_run h w tr l d :
  h !! l = Some d ->
  run (LarkOptions.__init__ l) (State h w tr)
  = (verdict d, State (<[fresh (dom h) := unpopped d]> h) w tr).
Proof.
  intros Hl. unfold LarkOptions.__init__.
  erewrite run_bind_Return by (by apply run_dict_copy).
  do 9 (erewrite run_bind_Return by apply run_dict_pop).
  repeat (rewrite lookup_delete_ne by done).
  unfold verdict, option_value.
  change (delete "start" _) with (unpopped d).
  destruct (LarkOptions.in_ENGINE_DICT (default (VStr "earley") (d !! "parser")));
    simpl; [ | reflexivity ].
  erewrite run_bind_Return by apply run_assert_true.
  destruct (eq_str _ "earley" && truthy _); simpl; [ reflexivity | ].
  erewrite run_bind_Return by apply run_ret.
  destruct (truthy (default (VBool false) (d !! "keep_all_tokens"))) eqn:Hkeep;
    simpl; [ reflexivity | ].
  erewrite run_bind_Return by apply run_ret.
  erewrite run_bind_Return by apply run_dict_truthy.
  destruct (bool_decide (unpopped d = ∅)); simpl.
  - erewrite run_bind_Return by apply run_ret. reflexivity.
  - erewrite run_bind_Raise; [ reflexivity | ].
    erewrite run_bind_Return by apply run_dict_keys. reflexivity.
Qed.

(** When the argument is no dict at all, [dict(options_dict)] raises. *)
Lemma LarkOptions_init_dangling h w tr l :
  h !! l = None ->
  run (LarkOptions.__init__ l) (State h w tr) = (Raise TypeError, State h w tr).
Proof.
  intros Hl. unfold LarkOptions.__init__.
  erewrite run_bind_Raise; [ reflexivity | ].
  unfold run, dict_copy. simpl. by rewrite Hl.
Qed.

End OptionsRun.


(** ** Running [Lark.__init__] *)

Section LarkRun.
Context `{Collaborators}.

Lemma run_call {A} ev (f : World -> outcome A * World) h w tr :
  run (call ev f) (State h w tr) = ((f w).1, State h (f w).2 (tr ++ [ev])).
Proof. unfold run, call. simpl. by destruct (f w). Qed.

Lemma run_dict_new h w tr d :
  run (dict_new d) (State h w tr)
  = (Return (fresh (dom h)), State (<[fresh (dom h) := d]> h) w tr).
Proof. reflexivity. Qed.

(** Validation comes first: its verdict either ends the construction or
    hands the options to the rest of the body. *)
Lemma Lark_init_options g kw h w tr :
  run (Lark.__init__ g kw) (State h w tr) =
  match verdict kw with
  | Raise e => (Raise e, State (validated h kw) w tr)
  | Return o => run (Lark.construct g o) (State (validated h kw) w tr)
  end.
Proof.
  unfold Lark.__init__.
  erewrite run_bind_Return by apply run_dict_new.
  destruct (verdict kw) as [o|e] eqn:Hv.
  - erewrite run_bind_Return; [ reflexivity | ].
    rewrite LarkOptions_init_run with (d:=kw) by apply lookup_insert_eq.
    by rewrite Hv.
  - erewrite run_bind_Raise; [ reflexivity | ].
    rewrite LarkOptions_init_run with (d:=kw) by apply lookup_insert_eq.
    by rewrite Hv.
Qed.

(** Dicts that exist before the call are the same after validation. *)
Lemma validated_lookup h kw l d :
  h !! l = Some d -> validated h kw !! l = Some d.
Proof.
  intros Hl. unfold validated. simpl.
  assert (Hin : forall (m : gmap loc pydict) x, is_Some (m !! x) -> fresh (dom m) ≠ x).
  { intros m x Hx <-. apply (is_fresh (dom m)). by apply elem_of_dom. }
  rewrite lookup_insert_ne.
  - rewrite lookup_insert_ne; [ done | ]. apply Hin. eauto.
  - apply Hin. rewrite lookup_insert_ne; [ eauto | ]. apply Hin. eauto.
Qed.

(** The loop of [_build_lexer] appends, in order, every pair and the names
    flagged "ignore". *)
Lemma _build_lexer_loop_spec defs ig tk :
  Lark._build_lexer_loop defs ig tk
  = (ig ++ lexer_ignore defs, tk ++ lexer_patterns defs).
Proof.
  revert ig tk. induction defs as [|[name value flags] defs IH]; intros ig tk.
  - simpl. by rewrite !app_nil_r.
  - simpl. rewrite IH. unfold lexer_ignore, lexer_patterns.
    rewrite filter_cons. simpl. rewrite <- (app_assoc tk).
    destruct (decide ("ignore" ∈ flags)) as [Hin|Hout].
    + rewrite bool_decide_eq_true_2 by done. by rewrite <- app_assoc.
    + by rewrite bool_decide_eq_false_2 by done.
Qed.

Lemma run__build_lexer defs h w tr :
  run (Lark._build_lexer defs) (State h w tr)
  = ((Lexer (lexer_patterns defs) ∅ (lexer_ignore defs) w).1,
     State h (Lexer (lexer_patterns defs) ∅ (lexer_ignore defs) w).2
           (tr ++ [CallLexer (lexer_patterns defs) ∅ (lexer_ignore defs)])).
Proof.
  unfold Lark._build_lexer. rewrite _build_lexer_loop_spec. simpl.
  apply run_call.
Qed.

End LarkRun.

Section Construct.
Context `{Collaborators}.

Lemma run_assert_inv c s u s' :
  run (assert c) s = (Return u, s') -> c = true /\ s' = s.
Proof.
  destruct c; unfold run, assert, ret, raise; intros Hr; simplify_eq; done.
Qed.

Lemma run_when_raise_inv c e s u s' :
  run (when c (raise e)) s = (Return u, s') -> c = false /\ s' = s.
Proof.
  destruct c; unfold run, when, ret, raise; intros Hr; simplify_eq; done.
Qed.

Lemma run_call_inv {A} ev (f : World -> outcome A * World) h w tr a s' :
  run (call ev f) (State h w tr) = (Return a, s') ->
  exists w', f w = (Return a, w') /\ s' = State h w' (tr ++ [ev]).
Proof.
  rewrite run_call. destruct (f w) as [r w']. simpl. intros Hr.
  simplify_eq. eauto.
Qed.

Lemma run_ret_inv {A} (a b : A) s s' :
  run (ret a) s = (Return b, s') -> b = a /\ s' = s.
Proof. unfold run, ret. intros Hr. by simplify_eq. Qed.

Lemma run_getitem_inv name s cls s' :
  run (Lark.ENGINE_DICT_getitem name) s = (Return cls, s') ->
  exists n, name = VStr n /\ ENGINE_DICT !! n = Some cls /\ s' = s.
Proof.
  unfold Lark.ENGINE_DICT_getitem, run.
  destruct name as [| | |n|]; try (intros Hr; discriminate Hr).
  destruct (ENGINE_DICT !! n) as [c|] eqn:Hn; intros Hr; [ | discriminate Hr ].
  unfold ret in Hr. simplify_eq. eauto.
Qed.

(** The statements that look at the grammar either raise, or leave the
    string with which the rest of the body runs as it does for that string. *)
Lemma construct_grammar g o :
  Lark.construct g o =
  match grammar_result g with
  | Return text => Lark.construct (GString text) o
  | Raise e => raise e
  end.
Proof.
  destruct g as [text|[source|] hashable [v|e]|v [source|] hashable];
    try destruct source as [| | |path|]; try destruct hashable;
    try destruct v as [| | |text|]; reflexivity.
Qed.

(** For a plain string they do nothing. *)
Lemma construct_GString text o :
  Lark.construct (GString text) o =
  (assert (is_string (VStr text)) ;;;
   when (truthy (LarkOptions.cache_grammar o))
        (raise (NotImplementedError (Plain "Not available yet"))) ;;;
   loaded <- call (CallLoadGrammar text) (load_grammar text) ;;
   let '(self_tokens, self_rules) := loaded in
   self_lexer <- Lark._build_lexer self_tokens ;;
   if negb (LarkOptions.only_lex o) then
     cls <- Lark.ENGINE_DICT_getitem (LarkOptions.parser o) ;;
     self_parser_engine <- call (CallEngine cls) (engine_new cls) ;;
     self_parse_tree_builder <-
       call (CallParseTreeBuilder (LarkOptions.tree_class o))
            (ParseTreeBuilder (LarkOptions.tree_class o)) ;;
     self_parser <- Lark._build_parser o self_rules
                      self_parse_tree_builder self_parser_engine ;;
     ret (Lark.mk o self_tokens self_rules self_lexer
            (Some self_parser_engine) (Some self_parse_tree_builder)
            (Some self_parser))
   else
     ret (Lark.mk o self_tokens self_rules self_lexer None None None)).
Proof. reflexivity. Qed.

Lemma grammar_text_result g text :
  grammar_text g = Some text <-> grammar_result g = Return text.
Proof.
  unfold grammar_text. destruct (grammar_result g); split; intros Hr;
    by simplify_eq.
Qed.

(** A construction that returns has gone through every step: what each
    collaborator was given, what it answered, and the calls made. *)
Lemma construct_success g o h w tr L s' :
  run (Lark.construct g o) (State h w tr) = (Return L, s') ->
  exists text w1 w2,
    grammar_text g = Some text /\
    truthy (LarkOptions.cache_grammar o) = false /\
    Lark.options L = o /\
    load_grammar text w = (Return (Lark.tokens L, Lark.rules L), w1) /\
    Lexer (lexer_patterns (Lark.tokens L)) ∅ (lexer_ignore (Lark.tokens L)) w1
      = (Return (Lark.lexer L), w2) /\
    let lexing :=
      [CallLoadGrammar text;
       CallLexer (lexer_patterns (Lark.tokens L)) ∅
                 (lexer_ignore (Lark.tokens L))] in
    if LarkOptions.only_lex o then
      Lark.parser_engine L = None /\ Lark.parse_tree_builder L = None /\
      Lark.parser L = None /\ s' = State h w2 (tr ++ lexing)
    else
      exists name cls eng b rules' cb p w3 w4 w5 w6,
        LarkOptions.parser o = VStr name /\
        ENGINE_DICT !! name = Some cls /\
        engine_new cls w2 = (Return eng, w3) /\
        ParseTreeBuilder (LarkOptions.tree_class o) w3 = (Return b, w4) /\
        create_tree_builder b (Lark.rules L) (LarkOptions.transformer o) w4
          = (Return (rules', cb), w5) /\
        build_parser eng rules' cb (LarkOptions.start o) w5 = (Return p, w6) /\
        Lark.parser_engine L = Some eng /\
        Lark.parse_tree_builder L = Some b /\
        Lark.parser L = Some p /\
        s' = State h w6
               (tr ++ lexing ++
                [CallEngine cls;
                 CallParseTreeBuilder (LarkOptions.tree_class o);
                 CallCreateTreeBuilder b (Lark.rules L) (LarkOptions.transformer o);
                 CallBuildParser eng rules' cb (LarkOptions.start o)]).
Proof.
  intros Hr. rewrite construct_grammar in Hr.
  destruct (grammar_result g) as [text|e] eqn:Htext; [ | discriminate Hr ].
  apply grammar_text_result in Htext.
  rewrite construct_GString in Hr.
  apply run_bind_inv in Hr as (u1 & s1 & Hassert & Hr).
  apply run_assert_inv in Hassert as [_ ->].
  apply run_bind_inv in Hr as (u2 & s2 & Hcache & Hr).
  apply run_when_raise_inv in Hcache as [Hcache ->].
  apply run_bind_inv in Hr as ([defs rules] & s3 & Hload & Hr).
  apply run_call_inv in Hload as (w1 & Hload & ->).
  apply run_bind_inv in Hr as (lx & s4 & Hlex & Hr).
  rewrite run__build_lexer in Hlex.
  destruct (Lexer (lexer_patterns defs) ∅ (lexer_ignore defs) w1)
    as [rl w2] eqn:Hlexer.
  simpl in Hlex. injection Hlex as -> <-.
  exists text, w1, w2.
  destruct (LarkOptions.only_lex o) eqn:Honly; simpl in Hr.
  - apply run_ret_inv in Hr as [-> ->]. simpl.
    rewrite <- app_assoc. repeat split; done.
  - apply run_bind_inv in Hr as (cls & s5 & Hget & Hr).
    apply run_getitem_inv in Hget as (name & Hname & Hcls & ->).
    apply run_bind_inv in Hr as (eng & s6 & Heng & Hr).
    apply run_call_inv in Heng as (w3 & Heng & ->).
    apply run_bind_inv in Hr as (b & s7 & Hb & Hr).
    apply run_call_inv in Hb as (w4 & Hb & ->).
    apply run_bind_inv in Hr as (p & s8 & Hp & Hr).
    unfold Lark._build_parser in Hp.
    apply run_bind_inv in Hp as ([rules' cb] & s9 & Hcb & Hp).
    apply run_call_inv in Hcb as (w5 & Hcb & ->).
    apply run_call_inv in Hp as (w6 & Hp & ->).
    apply run_ret_inv in Hr as [-> ->]. simpl.
    repeat (split; [ done | ]).
    exists name, cls, eng, b, rules', cb, p, w3, w4, w5, w6.
    repeat (split; [ done | ]).
    by rewrite <- !app_assoc.
Qed.

End Construct.

(** ** Calls and heap along any run, returning or raising *)

Section Frames.
Context `{Collaborators}.

Lemma run_bind_eq {A B} (m : M A) (k : A -> M B) s :
  run (bind m k) s =
  match run m s with
  | (Return a, s1) => run (k a) s1
  | (Raise e, s1) => (Raise e, s1)
  end.
Proof. reflexivity. Qed.

Lemma engine_calls_app e1 e2 :
  engine_calls (e1 ++ e2) = engine_calls e1 ++ engine_calls e2.
Proof. apply omap_app. Qed.

Lemma build_calls_app e1 e2 :
  build_calls (e1 ++ e2) = build_calls e1 ++ build_calls e2.
Proof. apply omap_app. Qed.

Lemma no_dispatch_nil : no_dispatch [].
Proof. split; reflexivity. Qed.

Lemma no_dispatch_app e1 e2 :
  no_dispatch e1 -> no_dispatch e2 -> no_dispatch (e1 ++ e2).
Proof.
  intros [Ha Hb] [Hc Hd]. split.
  - by rewrite engine_calls_app, Ha, Hc.
  - by rewrite build_calls_app, Hb, Hd.
Qed.

Lemma appends_mono {A} (P Q : list event -> Prop) (m : M A) :
  (forall evs, P evs -> Q evs) -> appends P m -> appends Q m.
Proof. intros HPQ Hm s. destruct (Hm s) as (evs & Ht & HP). eauto. Qed.

(** Sequencing: the calls of [m], then those of the continuation. *)
Lemma appends_bind {A B} (P Q R : list event -> Prop)
    (m : M A) (k : A -> M B) :
  appends P m -> (forall a, appends Q (k a)) ->
  (forall e1, P e1 -> R e1) ->
  (forall e1 e2, P e1 -> Q e2 -> R (e1 ++ e2)) ->
  appends R (bind m k).
Proof.
  intros Hm Hk Hstop Hseq s. rewrite run_bind_eq.
  destruct (Hm s) as (e1 & Ht1 & HP).
  destruct (run m s) as [[a|e] s1]; simpl in Ht1.
  - destruct (Hk a s1) as (e2 & Ht2 & HQ).
    exists (e1 ++ e2). split; [ | by apply Hseq ].
    by rewrite Ht2, Ht1, app_assoc.
  - exists e1. split; [ exact Ht1 | by apply Hstop ].
Qed.

Lemma quiet_bind {A B} (m : M A) (k : A -> M B) :
  appends no_dispatch m -> (forall a, appends no_dispatch (k a)) ->
  appends no_dispatch (bind m k).
Proof.
  intros Hm Hk. apply appends_bind with (P := no_dispatch) (Q := no_dispatch);
    auto using no_dispatch_app.
Qed.

Lemma appends_silent {A} (P : list event -> Prop) (m : M A) :
  P [] -> (forall s, trace (run m s).2 = trace s) -> appends P m.
Proof. intros HP Hm s. exists []. by rewrite app_nil_r. Qed.

Lemma quiet_ret {A} (a : A) : appends no_dispatch (ret a).
Proof. by apply appends_silent; [ apply no_dispatch_nil | ]. Qed.

Lemma quiet_raise {A} e : appends no_dispatch (raise (A:=A) e).
Proof. by apply appends_silent; [ apply no_dispatch_nil | ]. Qed.

Lemma quiet_lift {A} (r : outcome A) : appends no_dispatch (lift r).
Proof. by apply appends_silent; [ apply no_dispatch_nil | ]. Qed.

Lemma quiet_assert c : appends no_dispatch (assert c).
Proof. destruct c; [ apply quiet_ret | apply quiet_raise ]. Qed.

Lemma quiet_when c body :
  appends no_dispatch body -> appends no_dispatch (when c body).
Proof. destruct c; [ done | intros _; apply quiet_ret ]. Qed.

Lemma quiet_getitem name : appends no_dispatch (Lark.ENGINE_DICT_getitem name).
Proof.
  unfold Lark.ENGINE_DICT_getitem.
  destruct name as [| | |n|]; try apply quiet_raise.
  destruct (ENGINE_DICT !! n); [ apply quiet_ret | apply quiet_raise ].
Qed.

Lemma appends_call {A} (P : list event -> Prop) ev
    (f : World -> outcome A * World) :
  P [ev] -> appends P (call ev f).
Proof.
  intros HP [h w tr]. exists [ev]. by rewrite run_call.
Qed.

Lemma quiet__build_lexer defs : appends no_dispatch (Lark._build_lexer defs).
Proof.
  unfold Lark._build_lexer. destruct (Lark._build_lexer_loop defs [] []).
  by apply appends_call.
Qed.

(** [_build_parser] runs the build routine of the engine it is given, at
    most once, and instantiates nothing. *)
Lemma _build_parser_calls o rules b eng :
  appends (fun evs => engine_calls evs = [] /\ length (build_calls evs) <= 1)
          (Lark._build_parser o rules b eng).
Proof.
  unfold Lark._build_parser.
  apply appends_bind with (P := no_dispatch)
    (Q := fun evs => engine_calls evs = [] /\ length (build_calls evs) <= 1).
  - by apply appends_call.
  - intros [rules' cb]. apply appends_call. split; simpl; [ done | lia ].
  - intros e1 [-> ->]. split; simpl; [ done | lia ].
  - intros e1 e2 [He Hb] [He' Hb']. split.
    + by rewrite engine_calls_app, He, He'.
    + by rewrite build_calls_app, Hb.
Qed.

(** The body of [__init__] after validation: in every run, returning or
    raising, at most one engine class is instantiated, the one
    [ENGINE_DICT] holds for the [parser] option. *)
Lemma construct_calls g o : appends (dispatch_once o) (Lark.construct g o).
Proof.
  rewrite construct_grammar.
  destruct (grammar_result g) as [text|e];
    [ rewrite construct_GString
    | apply appends_mono with (P := no_dispatch);
      [ intros e1 He; by left | apply quiet_raise ] ].
  assert (Hleft : forall e1, no_dispatch e1 -> dispatch_once o e1)
    by (intros e1 He; by left).
  assert (Hseq : forall e1 e2,
            no_dispatch e1 -> dispatch_once o e2 -> dispatch_once o (e1 ++ e2)).
  { intros e1 e2 He1 [He2 | (n & cls & Hn & Hc & He & Hb)].
    - left. by apply no_dispatch_app.
    - right. exists n, cls. destruct He1 as [Ha Hb1].
      repeat (split; [ done | ]). split.
      + by rewrite engine_calls_app, Ha, He.
      + by rewrite build_calls_app, Hb1. }
  apply appends_bind with (P := no_dispatch) (Q := dispatch_once o);
    [ apply quiet_assert | intros _ | done | done ].
  apply appends_bind with (P := no_dispatch) (Q := dispatch_once o);
    [ apply quiet_when, quiet_raise | intros _ | done | done ].
  apply appends_bind with (P := no_dispatch) (Q := dispatch_once o);
    [ by apply appends_call | intros [defs rules] | done | done ].
  apply appends_bind with (P := no_dispatch) (Q := dispatch_once o);
    [ apply quiet__build_lexer | intros lx | done | done ].
  destruct (LarkOptions.only_lex o); simpl;
    [ apply appends_mono with (P := no_dispatch); [ done | apply quiet_ret ] | ].
  destruct (LarkOptions.parser o) as [| | |n|] eqn:Hparser; simpl;
    try (apply appends_mono with (P := no_dispatch); [ done | ];
         rewrite run_bind_raise_l; apply quiet_raise).
  destruct (ENGINE_DICT !! n) as [cls|] eqn:Hcls;
    [ | apply appends_mono with (P := no_dispatch); [ done | ];
        rewrite run_bind_raise_l; apply quiet_raise ].
  rewrite (run_bind_ret_l cls).
  apply appends_bind with
    (P := fun evs => engine_calls evs = [cls] /\ build_calls evs = [])
    (Q := fun evs => engine_calls evs = [] /\ length (build_calls evs) <= 1).
  - by apply appends_call.
  - intros eng.
    apply appends_bind with (P := no_dispatch)
      (Q := fun evs => engine_calls evs = [] /\ length (build_calls evs) <= 1).
    + by apply appends_call.
    + intros b.
      apply appends_bind with
        (P := fun evs => engine_calls evs = [] /\ length (build_calls evs) <= 1)
        (Q := no_dispatch).
      * apply _build_parser_calls.
      * intros p. apply quiet_ret.
      * done.
      * intros e1 e2 [He Hb] [He' Hb']. split.
        -- by rewrite engine_calls_app, He, He'.
        -- by rewrite build_calls_app, Hb', app_nil_r.
    + intros e1 [-> ->]. split; simpl; [ done | lia ].
    + intros e1 e2 [He Hb] [He' Hb']. split.
      * by rewrite engine_calls_app, He, He'.
      * by rewrite build_calls_app, Hb.
  - intros e1 [He Hb]. right. exists n, cls.
    repeat (split; [ done | ]). rewrite Hb. simpl. lia.
  - intros e1 e2 [He Hb] [He' Hb']. right. exists n, cls.
    repeat (split; [ done | ]). split.
    + by rewrite engine_calls_app, He, He'.
    + by rewrite build_calls_app, Hb.
Qed.

End Frames.

Section HeapFrames.
Context `{Collaborators}.

Lemma heap_stable_bind {A B} (m : M A) (k : A -> M B) :
  heap_stable m -> (forall a, heap_stable (k a)) -> heap_stable (bind m k).
Proof.
  intros Hm Hk s. rewrite run_bind_eq. specialize (Hm s).
  destruct (run m s) as [[a|e] s1]; simpl in Hm; [ | exact Hm ].
  by rewrite Hk.
Qed.

Lemma heap_stable_ret {A} (a : A) : heap_stable (ret a).
Proof. by intros s. Qed.

Lemma heap_stable_raise {A} e : heap_stable (raise (A:=A) e).
Proof. by intros s. Qed.

Lemma heap_stable_assert c : heap_stable (assert c).
Proof. destruct c; by intros s. Qed.

Lemma heap_stable_when c body : heap_stable body -> heap_stable (when c body).
Proof. destruct c; [ done | by intros _ s ]. Qed.

Lemma heap_stable_call {A} ev (f : World -> outcome A * World) :
  heap_stable (call ev f).
Proof. intros [h w tr]. by rewrite run_call. Qed.

Lemma heap_stable_getitem name : heap_stable (Lark.ENGINE_DICT_getitem name).
Proof.
  unfold Lark.ENGINE_DICT_getitem.
  destruct name as [| | |n|]; try apply heap_stable_raise.
  destruct (ENGINE_DICT !! n); [ apply heap_stable_ret | apply heap_stable_raise ].
Qed.

Create HintDb heap_frame.
Hint Resolve heap_stable_ret heap_stable_raise heap_stable_assert
  heap_stable_when heap_stable_call heap_stable_getitem : heap_frame.

(** The body of [__init__] after validation never touches a dict. *)
Lemma construct_heap g o : heap_stable (Lark.construct g o).
Proof.
  rewrite construct_grammar.
  destruct (grammar_result g) as [text|e]; [ | apply heap_stable_raise ].
  rewrite construct_GString. unfold Lark._build_lexer, Lark._build_parser.
  apply heap_stable_bind; [ auto with heap_frame | intros _ ].
  apply heap_stable_bind; [ auto with heap_frame | intros _ ].
  apply heap_stable_bind; [ auto with heap_frame | intros [defs rules] ].
  apply heap_stable_bind; [ | intros lx ].
  { destruct (Lark._build_lexer_loop defs [] []). auto with heap_frame. }
  destruct (LarkOptions.only_lex o); simpl; [ auto with heap_frame | ].
  apply heap_stable_bind; [ auto with heap_frame | intros cls ].
  apply heap_stable_bind; [ auto with heap_frame | intros eng ].
  apply heap_stable_bind; [ auto with heap_frame | intros b ].
  apply heap_stable_bind; [ | intros p; auto with heap_frame ].
  apply heap_stable_bind; [ auto with heap_frame | intros [rules' cb] ].
  auto with heap_frame.
Qed.

(** Lexing and parsing call the lexer, the post-lexer and the parser, and
    never an engine class or a build routine. *)
Lemma lex_calls L text : appends no_dispatch (Lark.lex L text).
Proof.
  unfold Lark.lex. apply quiet_bind; [ by apply appends_call | intros st ].
  destruct (truthy _); [ by apply appends_call | apply quiet_ret ].
Qed.

Lemma parse_calls L text : appends no_dispatch (Lark.parse L text).
Proof.
  unfold Lark.parse.
  apply quiet_bind; [ apply quiet_assert | intros _ ].
  apply quiet_bind; [ apply lex_calls | intros st ].
  apply quiet_bind; [ apply quiet_lift | intros l ].
  destruct (Lark.parser L); [ by apply appends_call | apply quiet_raise ].
Qed.

End HeapFrames.

(** ** The verdict of the validation, case by case *)

Section Verdicts.
Context `{Collaborators}.

Lemma rejects_of_verdict g kw s e : verdict kw = Raise e -> rejects g kw s e.
Proof.
  intros Hv. destruct s as [h w tr]. unfold rejects.
  rewrite Lark_init_options, Hv. simpl.
  repeat (split; [ reflexivity | ]).
  intros l Hl. simpl in Hl.
  by rewrite (LarkOptions_init_run _ _ _ _ _ Hl), Hv.
Qed.

(** A construction that returns has passed the validation, and its
    [options] are the validated ones. *)
Lemma accepted_verdict g kw s L :
  (run (Lark.__init__ g kw) s).1 = Return L ->
  verdict kw = Return (Lark.options L).
Proof.
  destruct s as [h w tr]. rewrite Lark_init_options.
  destruct (verdict kw) as [o|e]; [ | intros Hr; discriminate Hr ].
  destruct (run (Lark.construct g o) _) as [r s'] eqn:Hc. simpl.
  intros ->. apply construct_success in Hc as (? & ? & ? & ? & ? & -> & _).
  reflexivity.
Qed.

Lemma supplied_transformer_truthy kw :
  supplies_true_transformer kw -> truthy (option_value kw "transformer" VNone) = true.
Proof. intros (t & Ht & Htrue). unfold option_value. by rewrite Ht. Qed.

Lemma verdict_unregistered kw :
  ~ registered (engine_name kw) -> verdict kw = Raise AssertionError.
Proof.
  unfold registered, engine_name, verdict. intros Hn.
  by destruct (LarkOptions.in_ENGINE_DICT _).
Qed.

Lemma verdict_transformer_with_earley kw :
  supplies_true_transformer kw -> engine_name kw = VStr "earley" ->
  verdict kw =
  if LarkOptions.in_ENGINE_DICT (VStr "earley")
  then Raise (ValueError LarkOptions.earley_transformer_msg)
  else Raise AssertionError.
Proof.
  intros Ht%supplied_transformer_truthy He. unfold engine_name in He.
  unfold verdict. rewrite He, Ht.
  by destruct (LarkOptions.in_ENGINE_DICT _).
Qed.

Lemma verdict_keep_all_tokens kw :
  truthy (option_value kw "keep_all_tokens" (VBool false)) = true ->
  verdict kw =
  if negb (LarkOptions.in_ENGINE_DICT (engine_name kw)) then Raise AssertionError
  else if eq_str (engine_name kw) "earley"
          && truthy (option_value kw "transformer" VNone)
  then Raise (ValueError LarkOptions.earley_transformer_msg)
  else Raise (NotImplementedError (Plain "Not implemented yet!")).
Proof. intros Hk. unfold verdict, engine_name. by rewrite Hk. Qed.

Lemma unknown_key_unpopped kw : has_unknown_key kw -> unpopped kw ≠ ∅.
Proof.
  intros (k & Hk & Hn) Hempty.
  apply elem_of_dom in Hk as [v Hv].
  assert (Hl : unpopped kw !! k = Some v).
  { rewrite unpopped_lookup. by rewrite decide_False. }
  rewrite Hempty in Hl. by rewrite lookup_empty in Hl.
Qed.

Lemma unpopped_keys kw :
  NoDup (map_to_list (unpopped kw)).*1 /\
  forall k, k ∈ (map_to_list (unpopped kw)).*1
            <-> k ∈ dom kw /\ k ∉ LarkOptions.names.
Proof.
  split; [ apply NoDup_fst_map_to_list | ].
  intros k. rewrite <- unpopped_dom_names.
  rewrite elem_of_dom. split.
  - intros ([k' v] & -> & Hin)%list_elem_of_fmap. simpl.
    apply elem_of_map_to_list in Hin. eauto.
  - intros [v Hv]. apply list_elem_of_fmap. exists (k, v).
    split; [ done | by apply elem_of_map_to_list ].
Qed.

Lemma verdict_unknown_key kw :
  has_unknown_key kw ->
  exists e, verdict kw = Raise e /\ configuration_error e /\
    (registered (engine_name kw) ->
     eq_str (engine_name kw) "earley"
       && truthy (option_value kw "transformer" VNone) = false ->
     truthy (option_value kw "keep_all_tokens" (VBool false)) = false ->
     reports_unknown_keys kw e).
Proof.
  intros Hu%unknown_key_unpopped. unfold verdict, registered, engine_name.
  destruct (LarkOptions.in_ENGINE_DICT _); simpl;
    [ | eexists; repeat split; done ].
  destruct (eq_str _ _ && truthy _); [ eexists; repeat split; done | ].
  destruct (truthy (option_value kw "keep_all_tokens" _));
    [ eexists; repeat split; done | ].
  rewrite bool_decide_eq_false_2 by done. simpl.
  eexists. split; [ reflexivity | ]. split; [ exact I | ].
  intros _ _ _. eexists. split; [ reflexivity | ]. apply unpopped_keys.
Qed.

Lemma verdict_refused kw :
  refused kw -> exists e, verdict kw = Raise e /\ configuration_error e.
Proof.
  intros [Ht He | Hn | Hu].
  - rewrite (verdict_transformer_with_earley _ Ht He).
    destruct (LarkOptions.in_ENGINE_DICT _); eexists; split; done.
  - rewrite (verdict_unregistered _ Hn). eexists; split; done.
  - destruct (verdict_unknown_key _ Hu) as (e & Hv & Hc & _). eauto.
Qed.

End Verdicts.

(** ** Legal options *)

Lemma unpopped_empty_iff (kw : pydict) :
  unpopped kw = ∅ <-> forall k, k ∈ dom kw -> k ∈ LarkOptions.names.
Proof.
  split.
  - intros Hempty k Hk. destruct (decide (k ∈ LarkOptions.names)) as [|Hn]; [ done | ].
    exfalso. apply (unknown_key_unpopped kw); [ by exists k | done ].
  - intros Hall. apply map_empty. intros k. rewrite unpopped_lookup.
    case_decide as Hk; [ done | ].
    destruct (kw !! k) as [v|] eqn:Hv; [ | done ].
    exfalso. apply Hk, Hall. apply elem_of_dom. eauto.
Qed.

(** A check that runs: every key of [kw] is an option name. *)
Lemma known_keys_check (kw : pydict) :
  forallb (fun k => bool_decide (k ∈ LarkOptions.names)) (map_to_list kw).*1 = true ->
  forall k, k ∈ dom kw -> k ∈ LarkOptions.names.
Proof.
  intros Hall k Hk. apply elem_of_dom in Hk as [v Hv].
  rewrite forallb_forall in Hall.
  apply (bool_decide_eq_true_1 (k ∈ LarkOptions.names)), Hall.
  apply list_elem_of_In, list_elem_of_fmap. exists (k, v).
  split; [ done | by apply elem_of_map_to_list ].
Qed.

Ltac legal_by_computation :=
  split; [ reflexivity | split; [ reflexivity | split; [ reflexivity | ] ] ];
  apply known_keys_check; vm_compute; reflexivity.

Lemma verdict_legal `{Collaborators} (kw : pydict) :
  (legal kw -> verdict kw = Return (attributes kw)) /\
  (forall o, verdict kw = Return o -> legal kw /\ o = attributes kw).
Proof.
  unfold legal, registered, engine_name, verdict, attributes. split.
  - intros (Hreg & Hear & Hkeep & Hall).
    rewrite Hreg, Hear, Hkeep. simpl.
    by rewrite bool_decide_eq_true_2 by by apply unpopped_empty_iff.
  - intros o Hv.
    destruct (LarkOptions.in_ENGINE_DICT _); simpl in Hv; [ | discriminate Hv ].
    destruct (eq_str _ _ && truthy _); [ discriminate Hv | ].
    destruct (truthy (option_value kw "keep_all_tokens" _)) eqn:Hkeep;
      [ discriminate Hv | ].
    destruct (bool_decide (unpopped kw = ∅)) eqn:Hrest; simpl in Hv;
      [ | discriminate Hv ].
    apply bool_decide_eq_true_1 in Hrest.
    pose proof (proj1 (unpopped_empty_iff kw) Hrest) as Hall.
    injection Hv as <-. by repeat split.
Qed.

Lemma Lark_init_legal `{Collaborators} (g : grammar_arg) (kw : pydict) h w tr :
  legal kw ->
  run (Lark.__init__ g kw) (State h w tr)
  = run (Lark.construct g (attributes kw)) (State (validated h kw) w tr).
Proof.
  intros Hlegal. rewrite Lark_init_options.
  by rewrite (proj1 (verdict_legal kw) Hlegal).
Qed.

(** * The properties *)

(** ** The model at work *)

(** [Lark(g, parser="lalr")] goes through every step, in the order of the
    source. *)
Example lalr_construction_trace :
  trace (run (Lark.__init__ (H:=Demo.collaborators) Demo.grammar Demo.kw_lalr)
             Demo.boot).2
  = [CallLoadGrammar (H:=Demo.collaborators) "start: A B";
     CallLexer [("A", "a"); ("B", "b"); ("WS", " ")] ∅ ["WS"];
     CallEngine (H:=Demo.collaborators) Demo.LALR;
     CallParseTreeBuilder (VObj (Obj 0 true));
     CallCreateTreeBuilder (H:=Demo.collaborators)
       (VObj (Obj 0 true)) ["A"; "B"] VNone;
     CallBuildParser (H:=Demo.collaborators)
       Demo.LALR ["A"; "B"] VNone (VStr "start")].
Proof. vm_compute. reflexivity. Qed.

(** [Lark(g, parser="glr")] fails the assertion. *)
Example glr_construction :
  (run (Lark.__init__ (H:=Demo.collaborators) Demo.grammar Demo.kw_glr)
       Demo.boot).1 = Raise AssertionError.
Proof. vm_compute. reflexivity. Qed.

(** [Lark(g, parser="lalr", transformer=t)] is accepted and keeps [t]. *)
Example lalr_accepts_transformer :
  exists L,
    (run (Lark.__init__ (H:=Demo.collaborators) Demo.grammar
                        Demo.kw_lalr_transformer) Demo.boot).1 = Return L /\
    LarkOptions.transformer (Lark.options L) = Demo.a_transformer.
Proof. eexists. split; vm_compute; reflexivity. Qed.

(** [Lark(g, parser="lalr", colour=1)] names the key it does not know. *)
Example colour_construction :
  (run (Lark.__init__ (H:=Demo.collaborators) Demo.grammar Demo.kw_colour)
       Demo.boot).1 = Raise (LarkOptions.unknown_options ["colour"]).
Proof. vm_compute. reflexivity. Qed.

(** The demo lexer on ["a b"]: the blank is matched, and withheld. *)
Example scan_a_b :
  SpecLexer.lex SpecLexer.literal [("A", "a"); ("B", "b"); ("WS", " ")] ["WS"] "a b"
  = mkStream [mkToken "A" "a" 0; mkToken "B" "b" 2] None /\
  SpecLexer.lex SpecLexer.literal [("A", "a"); ("B", "b"); ("WS", " ")] [] "a b"
  = mkStream [mkToken "A" "a" 0; mkToken "WS" " " 1; mkToken "B" "b" 2] None.
Proof. split; vm_compute; reflexivity. Qed.

(** Where nothing matches the scan stops on the offset. *)
Example scan_a_c :
  SpecLexer.lex SpecLexer.literal [("A", "a"); ("B", "b"); ("WS", " ")] ["WS"] "a c"
  = mkStream [mkToken "A" "a" 0] (Some (Foreign "UnexpectedCharacter" 2)).
Proof. vm_compute. reflexivity. Qed.

(** ** Option validation *)

(** C1, as the code has it.  Whenever the caller passes a transformer that
    counts as true and selects the "earley" engine, [Lark(...)] and
    [LarkOptions(...)] raise a configuration error while validating the
    options: nothing has been loaded or built, and no [Lark] exists on which
    [parse] could be called.  The error is the [ValueError] about
    auto-transformers as soon as "earley" is a key of [ENGINE_DICT].  A
    transformer that counts as false never draws that error from the
    validation. *)
Theorem C1_transformer_with_earley_rejected `{Collaborators}
    (g : grammar_arg) (kw : pydict) (s : state) (t : val) :
  kw !! "transformer" = Some t -> selects kw "earley" ->
  (truthy t = true ->
   exists e,
     rejects g kw s e /\ configuration_error e /\
     (registered (VStr "earley") ->
      e = ValueError LarkOptions.earley_transformer_msg)) /\
  (truthy t = false ->
   forall l, heap s !! l = Some kw ->
     (run (LarkOptions.__init__ l) s).1
     ≠ Raise (ValueError LarkOptions.earley_transformer_msg)).
Proof.
  intros Htr Hsel.
  assert (He : engine_name kw = VStr "earley").
  { unfold engine_name, option_value. by rewrite Hsel. }
  split.
  - intros Htrue.
    assert (Ht : supplies_true_transformer kw) by (by exists t).
    pose proof (verdict_transformer_with_earley kw Ht He) as Hv.
    unfold registered.
    destruct (LarkOptions.in_ENGINE_DICT (VStr "earley")).
    + exists (ValueError LarkOptions.earley_transformer_msg).
      split; [ by apply rejects_of_verdict | done ].
    + exists AssertionError.
      split; [ by apply rejects_of_verdict | ]. split; [ done | ].
      intros Hr. discriminate Hr.
  - intros Hfalse l Hl. destruct s as [h w tr]. simpl in Hl.
    rewrite (LarkOptions_init_run _ _ _ _ _ Hl). simpl.
    unfold verdict, option_value. rewrite Htr. simpl. rewrite Hfalse.
    rewrite andb_false_r.
    destruct (negb _); [ done | ].
    destruct (truthy (default (VBool false) (kw !! "keep_all_tokens"))); [ done | ].
    destruct (negb _); done.
Qed.

Lemma C1_witness :
  exists e,
    rejects (H:=Demo.collaborators) Demo.grammar Demo.kw_earley_transformer
            Demo.boot e /\
    configuration_error e /\
    (registered (H:=Demo.collaborators) (VStr "earley") ->
     e = ValueError LarkOptions.earley_transformer_msg).
Proof.
  apply (proj1 (C1_transformer_with_earley_rejected (H:=Demo.collaborators)
                  Demo.grammar Demo.kw_earley_transformer Demo.boot
                  Demo.a_transformer eq_refl eq_refl)).
  reflexivity.
Defined.

(** C1 as stated fails: a transformer whose truth value is false, passed
    with [parser="earley"], goes through the validation, and the
    construction returns a [Lark] that keeps it. *)
Lemma C1_counterexample :
  supplies_transformer Demo.kw_earley_empty_transformer /\
  selects Demo.kw_earley_empty_transformer "earley" /\
  exists L,
    (run (Lark.__init__ (H:=Demo.collaborators) Demo.grammar
            Demo.kw_earley_empty_transformer) Demo.boot).1 = Return L /\
    LarkOptions.transformer (Lark.options L) = Demo.an_empty_transformer /\
    LarkOptions.parser (Lark.options L) = VStr "earley".
Proof.
  split; [ by eexists | ]. split; [ reflexivity | ].
  eexists. split; [ vm_compute; reflexivity | ]. split; reflexivity.
Qed.

(** C2, as the code has it.  A configuration the checks refuse (a
    true-valued transformer with Earley, an engine name that is not
    registered, an unknown option key) makes [Lark(...)] raise out of the
    validation of its options, with the trace of collaborator calls and
    their world as they were: [load_grammar], [Lexer] and the engine's build
    routine have not been invoked. *)
Theorem C2_illegal_rejected_before_compilation `{Collaborators}
    (g : grammar_arg) (kw : pydict) (s : state) :
  refused kw ->
  exists e,
    rejects g kw s e /\ configuration_error e /\
    engine_calls (trace (run (Lark.__init__ g kw) s).2) = engine_calls (trace s) /\
    build_calls (trace (run (Lark.__init__ g kw) s).2) = build_calls (trace s) /\
    forall text,
      CallLoadGrammar text ∈ trace (run (Lark.__init__ g kw) s).2 ->
      CallLoadGrammar text ∈ trace s.
Proof.
  intros Hill. destruct (verdict_refused kw Hill) as (e & Hv & Hc).
  exists e. pose proof (rejects_of_verdict g kw s e Hv) as Hrej.
  split; [ exact Hrej | ]. split; [ exact Hc | ].
  destruct Hrej as (Hr & Htr & Hw & Ho).
  rewrite Htr. by repeat split.
Qed.

Lemma C2_witness :
  exists e,
    rejects (H:=Demo.collaborators) Demo.grammar Demo.kw_earley_transformer
            Demo.boot e /\
    configuration_error e /\
    engine_calls (trace (run (Lark.__init__ Demo.grammar
                                Demo.kw_earley_transformer) Demo.boot).2)
      = engine_calls (trace Demo.boot) /\
    build_calls (trace (run (Lark.__init__ Demo.grammar
                               Demo.kw_earley_transformer) Demo.boot).2)
      = build_calls (trace Demo.boot) /\
    forall text,
      CallLoadGrammar text
        ∈ trace (run (Lark.__init__ Demo.grammar Demo.kw_earley_transformer)
                     Demo.boot).2 ->
      CallLoadGrammar text ∈ trace Demo.boot.
Proof.
  apply (C2_illegal_rejected_before_compilation (H:=Demo.collaborators)).
  apply true_transformer_with_earley; [ | reflexivity ].
  exists Demo.a_transformer. split; reflexivity.
Defined.

(** C2 as stated fails: a transformer with Earley is accepted when the
    transformer counts as false, and the construction goes on to call
    [load_grammar] and the engine's build routine. *)
Lemma C2_counterexample :
  illegal (H:=Demo.collaborators) Demo.kw_earley_empty_transformer /\
  exists L,
    (run (Lark.__init__ (H:=Demo.collaborators) Demo.grammar
            Demo.kw_earley_empty_transformer) Demo.boot).1 = Return L /\
    CallLoadGrammar "start: A B"
      ∈ trace (run (Lark.__init__ (H:=Demo.collaborators) Demo.grammar
                      Demo.kw_earley_empty_transformer) Demo.boot).2 /\
    build_calls (trace (run (Lark.__init__ (H:=Demo.collaborators) Demo.grammar
                              Demo.kw_earley_empty_transformer) Demo.boot).2)
    = [Demo.Earley].
Proof.
  split.
  - apply transformer_with_earley; [ by eexists | reflexivity ].
  - eexists. split; [ vm_compute; reflexivity | ].
    split; [ | vm_compute; reflexivity ].
    vm_compute. apply list_elem_of_here.
Qed.

(** C9, as the code has it.  With a transformer that counts as true and no
    [parser] key, the engine is the default "earley" and the construction is
    rejected.  Conversely a construction that accepts such a transformer was
    given a [parser] key, naming a registered engine other than "earley":
    "lalr", when those are the two names [ENGINE_DICT] knows. *)
Theorem C9_transformer_needs_explicit_lalr `{Collaborators}
    (g : grammar_arg) (kw : pydict) (s : state) :
  supplies_true_transformer kw ->
  (kw !! "parser" = None ->
   engine_name kw = VStr "earley" /\
   exists e, rejects g kw s e /\ configuration_error e) /\
  (forall L, (run (Lark.__init__ g kw) s).1 = Return L ->
   exists name,
     selects kw name /\ name ≠ "earley" /\ is_Some (ENGINE_DICT !! name) /\
     ((forall n, is_Some (ENGINE_DICT !! n) -> n = "lalr" \/ n = "earley") ->
      name = "lalr")).
Proof.
  intros Ht. split.
  - intros Hnone.
    assert (He : engine_name kw = VStr "earley").
    { unfold engine_name, option_value. by rewrite Hnone. }
    split; [ exact He | ].
    destruct (verdict_refused kw (true_transformer_with_earley kw Ht He))
      as (e & Hv & Hc).
    exists e. split; [ by apply rejects_of_verdict | done ].
  - intros L HL. apply accepted_verdict in HL.
    pose proof (supplied_transformer_truthy kw Ht) as Htrue.
    unfold verdict in HL. rewrite Htrue in HL.
    destruct (LarkOptions.in_ENGINE_DICT _) eqn:Hreg; simpl in HL;
      [ | discriminate HL ].
    destruct (eq_str _ "earley") eqn:Hear; simpl in HL; [ discriminate HL | ].
    unfold option_value in Hreg, Hear.
    destruct (kw !! "parser") as [v|] eqn:Hp; simpl in Hreg, Hear;
      [ | discriminate Hear ].
    destruct v as [| | |name|]; simpl in Hreg; try discriminate Hreg.
    apply bool_decide_eq_true_1 in Hreg.
    exists name. split; [ exact Hp | ].
    assert (Hne : name ≠ "earley").
    { intros ->. simpl in Hear. discriminate Hear. }
    repeat (split; [ done | ]).
    intros Hknown. by destruct (Hknown name Hreg).
Qed.

Lemma C9_witness :
  (Demo.kw_transformer !! "parser" = None ->
   engine_name Demo.kw_transformer = VStr "earley" /\
   exists e,
     rejects (H:=Demo.collaborators) Demo.grammar Demo.kw_transformer Demo.boot e /\
     configuration_error e) /\
  (forall L,
     (run (Lark.__init__ (H:=Demo.collaborators) Demo.grammar Demo.kw_transformer)
          Demo.boot).1 = Return L ->
   exists name,
     selects Demo.kw_transformer name /\ name ≠ "earley" /\
     is_Some (ENGINE_DICT (Collaborators:=Demo.collaborators) !! name) /\
     ((forall n, is_Some (ENGINE_DICT (Collaborators:=Demo.collaborators) !! n) ->
                 n = "lalr" \/ n = "earley") ->
      name = "lalr")).
Proof.
  apply (C9_transformer_needs_explicit_lalr (H:=Demo.collaborators)).
  exists Demo.a_transformer. split; reflexivity.
Defined.

(** C9 as stated fails: a transformer that counts as false, passed without
    a [parser] key, is accepted, and the engine is the default "earley",
    not an explicitly selected "lalr". *)
Lemma C9_counterexample :
  supplies_transformer Demo.kw_empty_transformer /\
  Demo.kw_empty_transformer !! "parser" = None /\
  exists L,
    (run (Lark.__init__ (H:=Demo.collaborators) Demo.grammar
            Demo.kw_empty_transformer) Demo.boot).1 = Return L /\
    LarkOptions.transformer (Lark.options L) = Demo.an_empty_transformer /\
    LarkOptions.parser (Lark.options L) = VStr "earley" /\
    Lark.parser_engine L = Some Demo.Earley.
Proof.
  split; [ by eexists | ]. split; [ reflexivity | ].
  eexists. split; [ vm_compute; reflexivity | ]. repeat split.
Qed.

(** C5, as the code has it.  An unknown option key always makes the
    construction raise a configuration error out of the validation.  The
    error is the "Unknown options" [ValueError], listing exactly the keys
    that are no option names, when the earlier checks pass: the engine is
    registered, no transformer comes with "earley", [keep_all_tokens] is
    false. *)
Theorem C5_unknown_keys_reported `{Collaborators}
    (g : grammar_arg) (kw : pydict) (s : state) :
  has_unknown_key kw ->
  exists e,
    rejects g kw s e /\ configuration_error e /\
    (registered (engine_name kw) ->
     eq_str (engine_name kw) "earley"
       && truthy (option_value kw "transformer" VNone) = false ->
     truthy (option_value kw "keep_all_tokens" (VBool false)) = false ->
     reports_unknown_keys kw e).
Proof.
  intros Hu. destruct (verdict_unknown_key kw Hu) as (e & Hv & Hc & Hrep).
  exists e. split; [ by apply rejects_of_verdict | by split ].
Qed.

Lemma C5_witness :
  exists e,
    rejects (H:=Demo.collaborators) Demo.grammar Demo.kw_colour Demo.boot e /\
    configuration_error e /\
    (registered (H:=Demo.collaborators) (engine_name Demo.kw_colour) ->
     eq_str (engine_name Demo.kw_colour) "earley"
       && truthy (option_value Demo.kw_colour "transformer" VNone) = false ->
     truthy (option_value Demo.kw_colour "keep_all_tokens" (VBool false)) = false ->
     reports_unknown_keys Demo.kw_colour e).
Proof.
  apply (C5_unknown_keys_reported (H:=Demo.collaborators)).
  exists "colour". split.
  - apply elem_of_dom. exists (VInt 1). reflexivity.
  - vm_compute. intros Hin.
    by repeat (apply elem_of_cons in Hin as [Hin | Hin]; [ discriminate Hin | ]);
      apply elem_of_nil in Hin.
Defined.

(** C5 as stated fails: with [keep_all_tokens=True, colour=1] the key
    [colour] is unknown, and the exception is the [NotImplementedError] of
    the earlier check, which names no key. *)
Lemma C5_counterexample :
  has_unknown_key Demo.kw_keep_colour /\
  (run (Lark.__init__ (H:=Demo.collaborators) Demo.grammar Demo.kw_keep_colour)
       Demo.boot).1
  = Raise (NotImplementedError (Plain "Not implemented yet!")) /\
  ~ reports_unknown_keys Demo.kw_keep_colour
      (NotImplementedError (Plain "Not implemented yet!")).
Proof.
  split; [ | split ].
  - exists "colour". split.
    + apply elem_of_dom. exists (VInt 1). reflexivity.
    + vm_compute. intros Hin.
      by repeat (apply elem_of_cons in Hin as [Hin | Hin]; [ discriminate Hin | ]);
        apply elem_of_nil in Hin.
  - vm_compute. reflexivity.
  - intros (keys & Heq & _). discriminate Heq.
Qed.

(** C7, as the code has it.  A true [keep_all_tokens] always makes the
    construction raise a configuration error out of the validation, so no
    [Lark] is returned, and every [Lark] that is returned has
    [keep_all_tokens] false.  The error is the [NotImplementedError] when
    the two earlier checks pass: the engine is registered and no
    transformer comes with "earley". *)
Theorem C7_keep_all_tokens_rejected `{Collaborators}
    (g : grammar_arg) (kw : pydict) (s : state) :
  truthy (option_value kw "keep_all_tokens" (VBool false)) = true ->
  (exists e,
     rejects g kw s e /\ configuration_error e /\
     (registered (engine_name kw) ->
      eq_str (engine_name kw) "earley"
        && truthy (option_value kw "transformer" VNone) = false ->
      e = NotImplementedError (Plain "Not implemented yet!"))) /\
  (forall kw' s' L,
     (run (Lark.__init__ g kw') s').1 = Return L ->
     LarkOptions.keep_all_tokens (Lark.options L) = false /\
     truthy (option_value kw' "keep_all_tokens" (VBool false)) = false).
Proof.
  intros Hk. split.
  - pose proof (verdict_keep_all_tokens kw Hk) as Hv. unfold registered.
    destruct (LarkOptions.in_ENGINE_DICT (engine_name kw)); simpl in Hv.
    + destruct (eq_str _ _ && truthy _).
      * eexists. split; [ by apply rejects_of_verdict | ]. split; [ done | ].
        intros _ Hf. discriminate Hf.
      * eexists. split; [ by apply rejects_of_verdict | ]. by split.
    + eexists. split; [ by apply rejects_of_verdict | ]. split; [ done | ].
      intros Hf. discriminate Hf.
  - intros kw' s' L HL. apply accepted_verdict in HL. unfold verdict in HL.
    destruct (negb _); [ discriminate HL | ].
    destruct (_ && _); [ discriminate HL | ].
    destruct (truthy (option_value kw' "keep_all_tokens" _)) eqn:Hkeep;
      [ discriminate HL | ].
    destruct (negb _); [ discriminate HL | ].
    injection HL as <-. by split.
Qed.

Lemma C7_witness :
  (exists e,
     rejects (H:=Demo.collaborators) Demo.grammar Demo.kw_keep Demo.boot e /\
     configuration_error e /\
     (registered (H:=Demo.collaborators) (engine_name Demo.kw_keep) ->
      eq_str (engine_name Demo.kw_keep) "earley"
        && truthy (option_value Demo.kw_keep "transformer" VNone) = false ->
      e = NotImplementedError (Plain "Not implemented yet!"))) /\
  (forall kw' s' L,
     (run (Lark.__init__ (H:=Demo.collaborators) Demo.grammar kw') s').1 = Return L ->
     LarkOptions.keep_all_tokens (Lark.options L) = false /\
     truthy (option_value kw' "keep_all_tokens" (VBool false)) = false).
Proof.
  apply (C7_keep_all_tokens_rejected (H:=Demo.collaborators)). reflexivity.
Defined.

(** C7 as stated fails: with [keep_all_tokens=True] and a transformer (the
    engine defaulting to "earley") the exception is the [ValueError] of the
    earlier check, not the [NotImplementedError]. *)
Lemma C7_counterexample :
  truthy (option_value Demo.kw_keep_transformer "keep_all_tokens" (VBool false))
  = true /\
  (run (Lark.__init__ (H:=Demo.collaborators) Demo.grammar Demo.kw_keep_transformer)
       Demo.boot).1
  = Raise (ValueError LarkOptions.earley_transformer_msg) /\
  forall m, ValueError LarkOptions.earley_transformer_msg ≠ NotImplementedError m.
Proof.
  split; [ reflexivity | split ].
  - vm_compute. reflexivity.
  - intros m Heq. discriminate Heq.
Qed.

(** ** The caller's dict *)

(** C10.  Every dict that exists when [LarkOptions(options_dict)] or
    [Lark(grammar, **kw)] is called, the argument among them, holds the same
    items afterwards, whether the call returns or raises: the pops go to a
    copy, at an address that was free before the call. *)
Theorem C10_options_dict_not_mutated `{Collaborators}
    (s : state) (options_dict : loc) (g : grammar_arg) (kw : pydict)
    (l : loc) (d : pydict) :
  heap s !! l = Some d ->
  heap (run (LarkOptions.__init__ options_dict) s).2 !! l = Some d /\
  heap (run (Lark.__init__ g kw) s).2 !! l = Some d /\
  (forall l', l' ≠ fresh (dom (heap s)) ->
     heap (run (LarkOptions.__init__ options_dict) s).2 !! l' = heap s !! l') /\
  fresh (dom (heap s)) ≠ l.
Proof.
  intros Hl. destruct s as [h w tr]. simpl in *.
  assert (Hfresh : fresh (dom h) ≠ l).
  { intros <-. apply (is_fresh (dom h)). apply elem_of_dom. eauto. }
  split; [ | split; [ | split; [ | exact Hfresh ] ] ].
  - destruct (h !! options_dict) as [d0|] eqn:Ho.
    + rewrite (LarkOptions_init_run _ _ _ _ _ Ho). simpl.
      by rewrite lookup_insert_ne.
    + by rewrite (LarkOptions_init_dangling _ _ _ _ Ho).
  - rewrite Lark_init_options. destruct (verdict kw) as [o|e]; simpl.
    + rewrite construct_heap. simpl. by apply validated_lookup.
    + by apply validated_lookup.
  - intros l' Hl'. destruct (h !! options_dict) as [d0|] eqn:Ho.
    + rewrite (LarkOptions_init_run _ _ _ _ _ Ho). simpl.
      by rewrite lookup_insert_ne.
    + by rewrite (LarkOptions_init_dangling _ _ _ _ Ho).
Qed.

Lemma C10_witness :
  let s := @State Demo.collaborators (<[0 := Demo.kw_colour]> ∅) false [] in
  heap (run (LarkOptions.__init__ 0) s).2 !! 0 = Some Demo.kw_colour /\
  heap (run (Lark.__init__ Demo.grammar Demo.kw_colour) s).2 !! 0
  = Some Demo.kw_colour /\
  (forall l', l' ≠ fresh (dom (heap s)) ->
     heap (run (LarkOptions.__init__ 0) s).2 !! l' = heap s !! l') /\
  fresh (dom (heap s)) ≠ 0.
Proof.
  apply (C10_options_dict_not_mutated (H:=Demo.collaborators)). reflexivity.
Defined.

(** ** Engine selection *)

Lemma verdict_parser `{Collaborators} (kw : pydict) (o : LarkOptions.t) :
  verdict kw = Return o ->
  LarkOptions.parser o = engine_name kw /\
  LarkOptions.postlex o = option_value kw "postlex" VNone /\
  LarkOptions.transformer o = option_value kw "transformer" VNone /\
  LarkOptions.only_lex o = truthy (option_value kw "only_lex" (VBool false)).
Proof.
  unfold verdict. intros Hv.
  destruct (negb _); [ discriminate Hv | ].
  destruct (_ && _); [ discriminate Hv | ].
  destruct (truthy (option_value kw "keep_all_tokens" _)); [ discriminate Hv | ].
  destruct (negb _); [ discriminate Hv | ].
  injection Hv as <-. by repeat split.
Qed.

(** When every collaborator returns, so does the body, with the six calls
    on the trace. *)
Lemma construct_returns `{Collaborators} g o h w tr text defs rules lx name cls
    eng b rules' cb p w1 w2 w3 w4 w5 w6 :
  grammar_text g = Some text ->
  truthy (LarkOptions.cache_grammar o) = false ->
  LarkOptions.only_lex o = false ->
  LarkOptions.parser o = VStr name -> ENGINE_DICT !! name = Some cls ->
  load_grammar text w = (Return (defs, rules), w1) ->
  Lexer (lexer_patterns defs) ∅ (lexer_ignore defs) w1 = (Return lx, w2) ->
  engine_new cls w2 = (Return eng, w3) ->
  ParseTreeBuilder (LarkOptions.tree_class o) w3 = (Return b, w4) ->
  create_tree_builder b rules (LarkOptions.transformer o) w4
    = (Return (rules', cb), w5) ->
  build_parser eng rules' cb (LarkOptions.start o) w5 = (Return p, w6) ->
  run (Lark.construct g o) (State h w tr)
  = (Return (Lark.mk o defs rules lx (Some eng) (Some b) (Some p)),
     State h w6
       (tr ++ [CallLoadGrammar text;
               CallLexer (lexer_patterns defs) ∅ (lexer_ignore defs);
               CallEngine cls;
               CallParseTreeBuilder (LarkOptions.tree_class o);
               CallCreateTreeBuilder b rules (LarkOptions.transformer o);
               CallBuildParser eng rules' cb (LarkOptions.start o)])).
Proof.
  intros Htext%grammar_text_result Hcache Honly Hname Hcls
         Hload Hlex Heng Hb Hcb Hbuild.
  rewrite construct_grammar, Htext, construct_GString, Hcache, Honly, Hname.
  simpl. rewrite Hcls. rewrite !run_bind_ret_l.
  erewrite run_bind_Return by (rewrite run_call, Hload; cbn [fst snd]; reflexivity).
  cbv beta iota.
  erewrite run_bind_Return
    by (rewrite run__build_lexer, Hlex; cbn [fst snd]; reflexivity).
  rewrite run_bind_ret_l.
  erewrite run_bind_Return by (rewrite run_call, Heng; cbn [fst snd]; reflexivity).
  erewrite run_bind_Return by (rewrite run_call, Hb; cbn [fst snd]; reflexivity).
  erewrite run_bind_Return.
  2:{ unfold Lark._build_parser. cbv zeta.
      erewrite run_bind_Return
        by (rewrite run_call, Hcb; cbn [fst snd]; reflexivity).
      cbv beta iota. rewrite run_call, Hbuild. cbn [fst snd]. reflexivity. }
  unfold run, ret. simpl. by rewrite <- !app_assoc.
Qed.

(** C6, as the code has it.  An engine name that is not a key of
    [ENGINE_DICT] fails the assertion of the validation: a configuration
    error, before any collaborator is called.  For a registered name,
    whatever the run does, the only engine class ever instantiated is the
    one [ENGINE_DICT] holds for that name, at most once, with at most one
    build.  The dispatch takes place when the construction gets that far:
    with legal options, [only_lex] and [cache_grammar] false, a grammar that
    is a string and collaborators that return, the construction returns a
    [Lark], having instantiated that class exactly once and run the build
    routine of that instance exactly once; and every [Lark] returned with
    [only_lex] false has done so and keeps the parser built.  [parse] never
    dispatches again. *)
Theorem C6_engine_dispatch `{Collaborators}
    (g : grammar_arg) (kw : pydict) (s : state) :
  (~ registered (engine_name kw) ->
   rejects g kw s AssertionError /\ configuration_error AssertionError) /\
  (forall name cls,
     engine_name kw = VStr name -> ENGINE_DICT !! name = Some cls ->
     (exists evs,
        trace (run (Lark.__init__ g kw) s).2 = trace s ++ evs /\
        (engine_calls evs = [] \/ engine_calls evs = [cls]) /\
        length (build_calls evs) <= 1) /\
     (forall text defs rules lx eng b rules' cb p w1 w2 w3 w4 w5 w6,
        legal kw ->
        truthy (option_value kw "only_lex" (VBool false)) = false ->
        truthy (option_value kw "cache_grammar" (VBool false)) = false ->
        grammar_text g = Some text ->
        load_grammar text (world s) = (Return (defs, rules), w1) ->
        Lexer (lexer_patterns defs) ∅ (lexer_ignore defs) w1 = (Return lx, w2) ->
        engine_new cls w2 = (Return eng, w3) ->
        ParseTreeBuilder (option_value kw "tree_class" Tree) w3 = (Return b, w4) ->
        create_tree_builder b rules (option_value kw "transformer" VNone) w4
          = (Return (rules', cb), w5) ->
        build_parser eng rules' cb (option_value kw "start" (VStr "start")) w5
          = (Return p, w6) ->
        exists evs,
          (run (Lark.__init__ g kw) s).1
          = Return (Lark.mk (attributes kw) defs rules lx
                            (Some eng) (Some b) (Some p)) /\
          trace (run (Lark.__init__ g kw) s).2 = trace s ++ evs /\
          engine_calls evs = [cls] /\ build_calls evs = [eng]) /\
     (forall L,
        (run (Lark.__init__ g kw) s).1 = Return L ->
        LarkOptions.only_lex (Lark.options L) = false ->
        exists evs eng p,
          trace (run (Lark.__init__ g kw) s).2 = trace s ++ evs /\
          engine_calls evs = [cls] /\ build_calls evs = [eng] /\
          (exists w w', engine_new cls w = (Return eng, w')) /\
          (exists rules cb w w',
             build_parser eng rules cb (LarkOptions.start (Lark.options L)) w
             = (Return p, w')) /\
          Lark.parser_engine L = Some eng /\ Lark.parser L = Some p)) /\
  (forall L text s1,
     engine_calls (trace (run (Lark.parse L text) s1).2) = engine_calls (trace s1) /\
     build_calls (trace (run (Lark.parse L text) s1).2) = build_calls (trace s1)).
Proof.
  split; [ | split ].
  - intros Hn. split; [ | exact I ].
    apply rejects_of_verdict. by apply verdict_unregistered.
  - intros name cls Hname Hcls. destruct s as [h w tr].
    split; [ | split ].
    + rewrite Lark_init_options.
      destruct (verdict kw) as [o|e] eqn:Hv; simpl.
      * apply verdict_parser in Hv as (Hp & _). rewrite Hname in Hp.
        destruct (construct_calls g o (State (validated h kw) w tr))
          as (evs & Htr & Hd).
        exists evs. split; [ exact Htr | ].
        destruct Hd as [[He Hb] | (n & c & Hn & Hc & He & Hb)].
        -- split; [ by left | ]. rewrite Hb. simpl. lia.
        -- rewrite Hp in Hn. injection Hn as <-. rewrite Hcls in Hc.
           injection Hc as <-. split; [ by right | exact Hb ].
      * exists []. rewrite app_nil_r. repeat split; [ by left | simpl; lia ].
    + intros text defs rules lx eng b rules' cb p w1 w2 w3 w4 w5 w6
             Hlegal Honly Hcache Htext Hload Hlex Heng Hb Hcb Hbuild.
      simpl in Hload.
      rewrite (Lark_init_legal g kw h w tr Hlegal).
      rewrite (construct_returns g (attributes kw) (validated h kw) w tr
                 text defs rules lx name cls eng b rules' cb p
                 w1 w2 w3 w4 w5 w6 Htext Hcache Honly Hname Hcls
                 Hload Hlex Heng Hb Hcb Hbuild).
      simpl. eexists. split; [ reflexivity | ]. split; [ reflexivity | ].
      by split.
    + rewrite Lark_init_options.
      destruct (verdict kw) as [o|e] eqn:Hv; simpl;
        [ | intros L HL; discriminate HL ].
      apply verdict_parser in Hv as (Hp & _). rewrite Hname in Hp.
      intros L HL Honly.
      destruct (run (Lark.construct g o) (State (validated h kw) w tr))
        as [r s'] eqn:Hc.
      simpl in HL. subst r.
      apply construct_success in Hc
        as (text & w1 & w2 & Htext & Hcache & Ho & Hload & Hlex & Hrest).
      subst o. rewrite Honly in Hrest. simpl in Hrest.
      destruct Hrest
        as (n & c & eng & b & rules' & cb & p & w3 & w4 & w5 & w6
            & Hn & Hc & Heng & Hb & Hcb & Hbuild & Hpe & Hptb & Hpp & ->).
      rewrite Hp in Hn. injection Hn as <-. rewrite Hcls in Hc.
      injection Hc as <-.
      eexists _, eng, p. simpl. split; [ reflexivity | ].
      repeat (split; [ done || eauto | ]). exact Hpp.
  - intros L text s1. destruct (parse_calls L text s1) as (evs & Htr & He & Hb).
    rewrite Htr, engine_calls_app, build_calls_app, He, Hb, !app_nil_r. by split.
Qed.

Section C6_run.
Local Existing Instance Demo.collaborators.

(** [Lark(g, parser="lalr")]: the class registered as "lalr" is
    instantiated once and its build routine run once. *)
Lemma C6_witness :
  exists evs,
    (run (Lark.__init__ Demo.grammar Demo.kw_lalr) Demo.boot).1
    = Return (Lark.mk (attributes Demo.kw_lalr) Demo.tokens ["A"; "B"]
                (Demo.mkLexer [("A", "a"); ("B", "b"); ("WS", " ")] ["WS"])
                (Some Demo.LALR) (Some (VObj (Obj 0 true)))
                (Some (Demo.mkParser Demo.LALR ["A"; "B"]))) /\
    trace (run (Lark.__init__ Demo.grammar Demo.kw_lalr) Demo.boot).2
    = trace Demo.boot ++ evs /\
    engine_calls evs = [Demo.LALR] /\ build_calls evs = [Demo.LALR].
Proof.
  apply (proj1 (proj2 (proj1 (proj2
           (C6_engine_dispatch Demo.grammar Demo.kw_lalr Demo.boot))
           "lalr" Demo.LALR eq_refl eq_refl))
         "start: A B" Demo.tokens ["A"; "B"]
         (Demo.mkLexer [("A", "a"); ("B", "b"); ("WS", " ")] ["WS"])
         Demo.LALR (VObj (Obj 0 true)) ["A"; "B"] VNone
         (Demo.mkParser Demo.LALR ["A"; "B"])
         false false false false false false);
    try reflexivity.
  legal_by_computation.
Defined.

(** C6 as stated fails: "lalr" is registered, and with [only_lex] the
    construction returns without instantiating an engine or running a build
    routine. *)
Lemma C6_counterexample :
  engine_name Demo.kw_lalr_only_lex = VStr "lalr" /\
  ENGINE_DICT !! "lalr" = Some Demo.LALR /\
  exists L,
    (run (Lark.__init__ Demo.grammar Demo.kw_lalr_only_lex) Demo.boot).1
    = Return L /\
    engine_calls (trace (run (Lark.__init__ Demo.grammar Demo.kw_lalr_only_lex)
                             Demo.boot).2) = [] /\
    build_calls (trace (run (Lark.__init__ Demo.grammar Demo.kw_lalr_only_lex)
                            Demo.boot).2) = [] /\
    Lark.parser L = None.
Proof.
  split; [ reflexivity | ]. split; [ reflexivity | ].
  eexists. split; [ vm_compute; reflexivity | ].
  repeat split; vm_compute; reflexivity.
Qed.

End C6_run.

(** ** Parsing *)

(** [parse] unfolded: the assertion, the lexing, [list(...)], the parser. *)
Lemma run_parse `{Collaborators} (L : Lark.t) (text : string) (s1 : state)
    (p : ParserObj) :
  LarkOptions.only_lex (Lark.options L) = false ->
  Lark.parser L = Some p ->
  run (Lark.parse L text) s1 =
  match run (Lark.lex L text) s1 with
  | (Return tokens, s2) =>
      match py_list tokens with
      | Return l =>
          ((parser_parse p l (world s2)).1,
           State (heap s2) (parser_parse p l (world s2)).2
                 (trace s2 ++ [CallParse p l]))
      | Raise e => (Raise e, s2)
      end
  | (Raise e, s2) => (Raise e, s2)
  end.
Proof.
  intros Honly Hp. unfold Lark.parse. rewrite Honly, Hp. simpl.
  rewrite run_bind_ret_l, run_bind_eq.
  destruct (run (Lark.lex L text) s1) as [[tokens|e] s2]; [ | reflexivity ].
  rewrite run_bind_eq. unfold lift at 1. unfold run at 2.
  destruct (py_list tokens) as [l|e]; [ | reflexivity ].
  destruct s2 as [h2 w2 tr2]. apply run_call.
Qed.

(** C3.  A [Lark] returned by the constructor with [only_lex] false holds
    the parser its engine built, and [parse(text)] is that parser's [parse]
    on [list(self.lex(text))]: the same value or the same exception, in the
    world lexing left; when lexing raises, [parse] raises the same and the
    parser is not called. *)
Theorem C3_parse_chains_lex_into_engine `{Collaborators}
    (g : grammar_arg) (kw : pydict) (s : state) (L : Lark.t) :
  (run (Lark.__init__ g kw) s).1 = Return L ->
  LarkOptions.only_lex (Lark.options L) = false ->
  exists eng p,
    Lark.parser_engine L = Some eng /\ Lark.parser L = Some p /\
    (exists rules cb w w',
       build_parser eng rules cb (LarkOptions.start (Lark.options L)) w
       = (Return p, w')) /\
    forall text s1,
      match run (Lark.lex L text) s1 with
      | (Return tokens, s2) =>
          match py_list tokens with
          | Return l =>
              run (Lark.parse L text) s1
              = ((parser_parse p l (world s2)).1,
                 State (heap s2) (parser_parse p l (world s2)).2
                       (trace s2 ++ [CallParse p l]))
          | Raise e => run (Lark.parse L text) s1 = (Raise e, s2)
          end
      | (Raise e, s2) => run (Lark.parse L text) s1 = (Raise e, s2)
      end.
Proof.
  intros HL Honly. destruct s as [h w tr].
  pose proof (accepted_verdict _ _ _ _ HL) as Hv.
  rewrite Lark_init_options, Hv in HL.
  destruct (run (Lark.construct g (Lark.options L)) (State (validated h kw) w tr))
    as [r s'] eqn:Hc.
  simpl in HL. subst r.
  apply construct_success in Hc
    as (text0 & w1 & w2 & _ & _ & _ & _ & _ & Hrest).
  rewrite Honly in Hrest. simpl in Hrest.
  destruct Hrest
    as (n & c & eng & b & rules' & cb & p & w3 & w4 & w5 & w6
        & _ & _ & _ & _ & _ & Hbuild & Hpe & _ & Hpp & _).
  exists eng, p. repeat (split; [ done || eauto | ]).
  intros text s1. rewrite (run_parse L text s1 p Honly Hpp).
  destruct (run (Lark.lex L text) s1) as [[tokens|e] s2]; [ | reflexivity ].
  destruct (py_list tokens) as [l|e]; reflexivity.
Qed.

Lemma C3_witness :
  exists L,
    (run (Lark.__init__ (H:=Demo.collaborators) Demo.grammar Demo.kw_lalr)
         Demo.boot).1 = Return L /\
    exists eng p,
      Lark.parser_engine L = Some eng /\ Lark.parser L = Some p /\
      (exists rules cb w w',
         build_parser eng rules cb (LarkOptions.start (Lark.options L)) w
         = (Return p, w')) /\
      forall text s1,
        match run (Lark.lex L text) s1 with
        | (Return tokens, s2) =>
            match py_list tokens with
            | Return l =>
                run (Lark.parse L text) s1
                = ((parser_parse p l (world s2)).1,
                   State (heap s2) (parser_parse p l (world s2)).2
                         (trace s2 ++ [CallParse p l]))
            | Raise e => run (Lark.parse L text) s1 = (Raise e, s2)
            end
        | (Raise e, s2) => run (Lark.parse L text) s1 = (Raise e, s2)
        end.
Proof.
  eexists. split; [ vm_compute; reflexivity | ].
  apply (C3_parse_chains_lex_into_engine (H:=Demo.collaborators)
           Demo.grammar Demo.kw_lalr Demo.boot); reflexivity.
Defined.

(** ** The lexer *)

(** Scanning with an ignore list is scanning without one, minus the tokens
    of the ignored names: they are matched and consume their text all the
    same, and the scan stops at the same place. *)
Lemma scan_ignore (match_at : string -> string -> option nat) (fuel : nat)
    (patterns : list (string * string)) (ignore : list string)
    (text : string) (offset : nat) :
  yielded (SpecLexer.scan match_at fuel patterns ignore text offset)
  = filter (fun t => tok_type t ∉ ignore)
           (yielded (SpecLexer.scan match_at fuel patterns [] text offset)) /\
  failure (SpecLexer.scan match_at fuel patterns ignore text offset)
  = failure (SpecLexer.scan match_at fuel patterns [] text offset).
Proof.
  revert text offset. induction fuel as [|fuel IH]; intros text offset; simpl.
  - by split.
  - destruct (bool_decide (text = EmptyString)); [ by split | ].
    destruct (SpecLexer.best_match match_at patterns text) as [[name n]|];
      [ | by split ].
    destruct (IH (String.substring n (String.length text - n) text) (offset + n))
      as [Hy Hf].
    simpl. rewrite filter_cons. simpl.
    destruct (decide (name ∈ ignore)) as [Hin|Hout].
    + rewrite bool_decide_eq_true_2 by done.
      rewrite decide_False by (intros Hn; by apply Hn). by split.
    + rewrite bool_decide_eq_false_2 by done.
      rewrite decide_True by done. simpl. by rewrite Hy.
Qed.

(** C4.  [_build_lexer] calls [Lexer] once, with every [(name, pattern)]
    pair of the token specifications in their order, ignored ones included,
    with an empty callback dict, and with the names flagged "ignore", those
    and no others, as the ignore list.  By the lexer's contract the ignored
    names are then still matched against the input and only withheld from
    the tokens yielded. *)
Theorem C4_lexer_gets_all_patterns_and_ignore_names `{Collaborators}
    (defs : list TokenDef) (s : state) :
  Lark._build_lexer_loop defs [] [] = (lexer_ignore defs, lexer_patterns defs) /\
  trace (run (Lark._build_lexer defs) s).2
  = trace s ++ [CallLexer (lexer_patterns defs) ∅ (lexer_ignore defs)] /\
  (run (Lark._build_lexer defs) s).1
  = (Lexer (lexer_patterns defs) ∅ (lexer_ignore defs) (world s)).1 /\
  length (lexer_patterns defs) = length defs /\
  (forall i d, defs !! i = Some d ->
     lexer_patterns defs !! i = Some (td_name d, td_value d)) /\
  (forall name,
     name ∈ lexer_ignore defs <->
     exists d, d ∈ defs /\ td_name d = name /\ "ignore" ∈ td_flags d) /\
  (forall match_at text,
     let matched := SpecLexer.lex match_at (lexer_patterns defs) [] text in
     let given := SpecLexer.lex match_at (lexer_patterns defs) (lexer_ignore defs) text in
     yielded given
     = filter (fun t => tok_type t ∉ lexer_ignore defs) (yielded matched) /\
     failure given = failure matched).
Proof.
  split; [ by rewrite _build_lexer_loop_spec | ].
  destruct s as [h w tr]. rewrite run__build_lexer. simpl.
  repeat (split; [ reflexivity | ]).
  split; [ apply length_fmap | ].
  split; [ | split ].
  - intros i d Hd. unfold lexer_patterns. by rewrite list_lookup_fmap, Hd.
  - intros name. unfold lexer_ignore. rewrite list_elem_of_fmap. split.
    + intros (d & -> & Hd). apply list_elem_of_filter in Hd as [Hflag Hd]. eauto.
    + intros (d & Hd & <- & Hflag). exists d.
      split; [ done | ]. by apply list_elem_of_filter.
  - intros match_at text. apply scan_ignore.
Qed.

(** The fuel [lex] gives is enough: any larger amount scans the same. *)
Lemma best_match_positive (match_at : string -> string -> option nat)
    (patterns : list (string * string)) (text name : string) (n : nat) :
  SpecLexer.best_match match_at patterns text = Some (name, n) -> 0 < n.
Proof.
  revert name n. induction patterns as [|[nm pat] later IH]; intros name n; simpl.
  - intros Hb. discriminate Hb.
  - destruct (match_at pat text) as [[|k]|]; try apply IH.
    destruct (SpecLexer.best_match match_at later text) as [[name' n']|] eqn:Hl.
    + destruct (Nat.ltb (S k) n') eqn:Hlt; intros Hb; injection Hb as <- <-.
      * by apply (IH name').
      * lia.
    + intros Hb. injection Hb as <- <-. lia.
Qed.

Lemma substring_length_le (n m : nat) (text : string) :
  String.length (String.substring n m text) <= m.
Proof.
  revert n m. induction text as [|c text IH]; intros n m.
  - destruct n, m; simpl; lia.
  - destruct n as [|n].
    + destruct m as [|m]; simpl; [ lia | ]. specialize (IH 0 m). lia.
    + simpl. apply IH.
Qed.

Lemma scan_fuel (match_at : string -> string -> option nat)
    (patterns : list (string * string)) (ignore : list string)
    (fuel1 fuel2 : nat) (text : string) (offset : nat) :
  String.length text <= fuel1 -> String.length text <= fuel2 ->
  SpecLexer.scan match_at fuel1 patterns ignore text offset
  = SpecLexer.scan match_at fuel2 patterns ignore text offset.
Proof.
  revert fuel2 text offset.
  induction fuel1 as [|fuel1 IH]; intros fuel2 text offset H1 H2.
  - destruct text; [ | simpl in H1; lia ]. by destruct fuel2.
  - destruct fuel2 as [|fuel2].
    + destruct text; [ reflexivity | simpl in H2; lia ].
    + simpl. destruct (bool_decide (text = EmptyString)) eqn:Hempty;
        [ reflexivity | ].
      apply bool_decide_eq_false_1 in Hempty.
      destruct (SpecLexer.best_match match_at patterns text) as [[name n]|] eqn:Hb;
        [ | reflexivity ].
      apply best_match_positive in Hb.
      assert (Hlen : 0 < String.length text) by (destruct text; simpl; [ done | lia ]).
      pose proof (substring_length_le n (String.length text - n) text) as Hsub.
      by rewrite (IH fuel2) by lia.
Qed.

Lemma C4_witness :
  Lark._build_lexer_loop Demo.tokens [] []
  = (["WS"], [("A", "a"); ("B", "b"); ("WS", " ")]).
Proof.
  apply (proj1 (C4_lexer_gets_all_patterns_and_ignore_names
                  (H:=Demo.collaborators) Demo.tokens Demo.boot)).
Defined.

(** ** Determinism *)




Section C8_run.
Local Existing Instance Demo.immutable.



End C8_run.

(** * Further properties *)

(** ** What the validation accepts *)

(** X1.  [LarkOptions(d)] returns exactly when the four checks pass: the
    engine name is a key of [ENGINE_DICT], no true-valued transformer comes
    with "earley", [keep_all_tokens] is false-valued and every key is an
    option name.  The object it returns holds, for each option, the caller's
    value or the default, the flags [debug], [only_lex] and
    [keep_all_tokens] as booleans. *)
Theorem X1_options_accepted_iff_legal `{Collaborators}
    (s : state) (options_dict : loc) (kw : pydict) :
  heap s !! options_dict = Some kw ->
  ((exists o, (run (LarkOptions.__init__ options_dict) s).1 = Return o)
   <-> legal kw) /\
  (forall o, (run (LarkOptions.__init__ options_dict) s).1 = Return o ->
             o = attributes kw).
Proof.
  intros Hl. destruct s as [h w tr]. simpl in Hl.
  rewrite (LarkOptions_init_run _ _ _ _ _ Hl). simpl.
  destruct (verdict_legal kw) as [Hto Hfrom]. split; [ split | ].
  - intros [o Ho]. by apply (Hfrom o).
  - intros Hlegal. exists (attributes kw). by apply Hto.
  - intros o Ho. by apply (Hfrom o).
Qed.

Lemma X1_witness :
  let s := @State Demo.collaborators (<[0 := Demo.kw_lalr_transformer]> ∅) false [] in
  ((exists o, (run (LarkOptions.__init__ 0) s).1 = Return o)
   <-> legal (H:=Demo.collaborators) Demo.kw_lalr_transformer) /\
  (forall o, (run (LarkOptions.__init__ 0) s).1 = Return o ->
             o = attributes (H:=Demo.collaborators) Demo.kw_lalr_transformer).
Proof.
  apply (X1_options_accepted_iff_legal (H:=Demo.collaborators)). reflexivity.
Defined.

(** ** The grammar argument and the cache option *)

(** X2.  [cache_grammar] is an option the validation accepts and the
    constructor refuses: with legal options, a true-valued [cache_grammar]
    and a grammar that is a string, [Lark(...)] raises the
    [NotImplementedError] "Not available yet" before [load_grammar] or any
    other collaborator is called, while [LarkOptions] on the same items
    returns. *)
Theorem X2_cache_grammar_unsupported `{Collaborators}
    (g : grammar_arg) (kw : pydict) (s : state) :
  legal kw ->
  truthy (option_value kw "cache_grammar" (VBool false)) = true ->
  is_Some (grammar_text g) ->
  (run (Lark.__init__ g kw) s).1
  = Raise (NotImplementedError (Plain "Not available yet")) /\
  trace (run (Lark.__init__ g kw) s).2 = trace s /\
  world (run (Lark.__init__ g kw) s).2 = world s /\
  forall l, heap s !! l = Some kw ->
    (run (LarkOptions.__init__ l) s).1 = Return (attributes kw).
Proof.
  intros Hlegal Hcache [text Htext]. destruct s as [h w tr].
  rewrite (Lark_init_legal g kw h w tr Hlegal).
  split; [ | split; [ | split ] ].
  1-3: rewrite construct_grammar;
       apply grammar_text_result in Htext; rewrite Htext, construct_GString;
       simpl; rewrite run_bind_ret_l; simpl; rewrite Hcache; reflexivity.
  intros l Hl. simpl in Hl. rewrite (LarkOptions_init_run _ _ _ _ _ Hl). simpl.
  by apply verdict_legal.
Qed.

Lemma X2_witness :
  let kw : pydict := <["cache_grammar" := VBool true]> Demo.kw_lalr in
  (run (Lark.__init__ (H:=Demo.collaborators) Demo.grammar kw) Demo.boot).1
  = Raise (NotImplementedError (Plain "Not available yet")) /\
  trace (run (Lark.__init__ Demo.grammar kw) Demo.boot).2 = trace Demo.boot /\
  world (run (Lark.__init__ Demo.grammar kw) Demo.boot).2 = world Demo.boot /\
  forall l, heap Demo.boot !! l = Some kw ->
    (run (LarkOptions.__init__ l) Demo.boot).1
    = Return (attributes (H:=Demo.collaborators) kw).
Proof.
  apply (X2_cache_grammar_unsupported (H:=Demo.collaborators)).
  - legal_by_computation.
  - reflexivity.
  - by eexists.
Defined.

Lemma grammar_raises_result (g : grammar_arg) (e : exn) :
  grammar_raises g e <-> grammar_result g = Raise e.
Proof.
  unfold grammar_result, grammar_named_well. split.
  - intros [Hn Hh | source Hn Hs | e' Hw Hv | v Hw Hv Hs].
    + by rewrite Hn, Hh.
    + by rewrite Hn, Hs.
    + unfold grammar_named_well in Hw. by rewrite Hw, Hv.
    + unfold grammar_named_well in Hw. rewrite Hw, Hv.
      by destruct v.
  - destruct (grammar_name g) as [source|] eqn:Hn.
    + destruct (is_string source) eqn:Hs.
      * destruct (grammar_value g) as [v|e'] eqn:Hv.
        -- destruct v; intros Hr; try discriminate Hr; simplify_eq;
             by eapply grammar_is_no_string;
               [ unfold grammar_named_well; rewrite Hn | exact Hv | ].
        -- intros Hr. simplify_eq. apply read_raises; [ | done ].
           unfold grammar_named_well. by rewrite Hn.
      * intros Hr. simplify_eq. by eapply name_is_no_path.
    + destruct (grammar_hashable g) eqn:Hh.
      * destruct (grammar_value g) as [v|e'] eqn:Hv.
        -- destruct v; intros Hr; try discriminate Hr; simplify_eq;
             by eapply grammar_is_no_string;
               [ unfold grammar_named_well; rewrite Hn | exact Hv | ].
        -- intros Hr. simplify_eq. apply read_raises; [ | done ].
           unfold grammar_named_well. by rewrite Hn.
      * intros Hr. simplify_eq. by apply unhashable_grammar.
Qed.


Section X3_run.
Local Existing Instance Demo.collaborators.


End X3_run.

(** ** The order of the calls *)

Section Order.
Context `{Collaborators}.

Lemma in_order_stop n bound : n <= bound -> in_order n bound [].
Proof. intros Hn. split; simpl; [ done | lia ]. Qed.

Lemma in_order_cons n bound ev evs :
  call_rank ev = n -> in_order (S n) bound evs -> in_order n bound (ev :: evs).
Proof.
  intros <- [Hr Hb]. split; [ | simpl; lia ].
  rewrite fmap_cons. simpl. by f_equal.
Qed.

Lemma ordered_silent {A B} n bound (m : M A) (k : A -> M B) :
  (forall s, trace (run m s).2 = trace s) -> n <= bound ->
  (forall a, appends (in_order n bound) (k a)) ->
  appends (in_order n bound) (bind m k).
Proof.
  intros Hm Hn Hk.
  apply appends_bind with (P := fun evs => evs = []) (Q := in_order n bound).
  - intros s. exists []. by rewrite app_nil_r.
  - exact Hk.
  - intros e1 ->. by apply in_order_stop.
  - by intros e1 e2 ->.
Qed.

Lemma ordered_call {A B} n bound ev (f : World -> outcome A * World)
    (k : A -> M B) :
  call_rank ev = n -> n < bound ->
  (forall a, appends (in_order (S n) bound) (k a)) ->
  appends (in_order n bound) (bind (call ev f) k).
Proof.
  intros Hr Hn Hk.
  apply appends_bind with (P := fun evs => evs = [ev]) (Q := in_order (S n) bound).
  - by apply appends_call.
  - exact Hk.
  - intros e1 ->. apply in_order_cons; [ done | apply in_order_stop; lia ].
  - intros e1 e2 -> He2. by apply in_order_cons.
Qed.

Lemma ordered_last_call {A} n bound ev (f : World -> outcome A * World) :
  call_rank ev = n -> n < bound -> appends (in_order n bound) (call ev f).
Proof.
  intros Hr Hn. apply appends_call.
  apply in_order_cons; [ done | apply in_order_stop; lia ].
Qed.

Lemma ordered_then_silent {A B} n bound (m : M A) (k : A -> M B) :
  appends (in_order n bound) m ->
  (forall a s, trace (run (k a) s).2 = trace s) ->
  appends (in_order n bound) (bind m k).
Proof.
  intros Hm Hk.
  apply appends_bind with (P := in_order n bound) (Q := fun evs => evs = []).
  - exact Hm.
  - intros a s. exists []. by rewrite app_nil_r, Hk.
  - done.
  - intros e1 e2 He1 ->. by rewrite app_nil_r.
Qed.

Lemma ordered_ret {A} n bound (a : A) : n <= bound -> appends (in_order n bound) (ret a).
Proof. intros Hn s. exists []. rewrite app_nil_r. split; [ done | by apply in_order_stop ]. Qed.

Lemma ordered_raise {A} n bound e :
  n <= bound -> appends (in_order n bound) (raise (A:=A) e).
Proof. intros Hn s. exists []. rewrite app_nil_r. split; [ done | by apply in_order_stop ]. Qed.

Lemma construct_in_order g o :
  appends (in_order 0 (call_budget o)) (Lark.construct g o).
Proof.
  unfold call_budget.
  assert (Hb : 2 <= if LarkOptions.only_lex o then 2 else 6)
    by (destruct (LarkOptions.only_lex o); lia).
  rewrite construct_grammar.
  destruct (grammar_result g) as [text|e];
    [ rewrite construct_GString | apply ordered_raise; lia ].
  apply ordered_silent; [ done | lia | intros _ ].
  apply ordered_silent; [ by destruct (truthy _) | lia | intros _ ].
  apply ordered_call; [ done | lia | intros [defs rules] ].
  unfold Lark._build_lexer. destruct (Lark._build_lexer_loop defs [] []).
  apply ordered_call; [ done | lia | intros lx ].
  destruct (LarkOptions.only_lex o); simpl; [ by apply ordered_ret | ].
  apply ordered_silent; [ | lia | intros cls ].
  { intros s. unfold Lark.ENGINE_DICT_getitem.
    destruct (LarkOptions.parser o) as [| | |n|]; try reflexivity.
    by destruct (ENGINE_DICT !! n). }
  apply ordered_call; [ done | lia | intros eng ].
  apply ordered_call; [ done | lia | intros b ].
  apply ordered_then_silent; [ | done ].
  unfold Lark._build_parser.
  apply ordered_call; [ done | lia | intros [rules' cb] ].
  apply ordered_last_call; [ done | lia ].
Qed.

End Order.

(** X4.  In every run of [Lark(grammar, **kw)], returning or raising, the
    collaborators are called in the order of the body and each at most
    once: [load_grammar], [Lexer], the engine class, [ParseTreeBuilder],
    [create_tree_builder], [build_parser]; the calls made are an initial
    part of that list, and with [only_lex] they stop after [Lexer].  A run
    that returns has made all of them: two with [only_lex], six without. *)
Theorem X4_collaborators_called_in_order `{Collaborators}
    (g : grammar_arg) (kw : pydict) (s : state) :
  exists evs,
    trace (run (Lark.__init__ g kw) s).2 = trace s ++ evs /\
    in_order 0 (call_budget (attributes kw)) evs /\
    forall L, (run (Lark.__init__ g kw) s).1 = Return L ->
              length evs = call_budget (attributes kw).
Proof.
  destruct s as [h w tr]. rewrite Lark_init_options.
  destruct (verdict kw) as [o|e] eqn:Hv; simpl.
  - apply verdict_legal in Hv as [_ ->].
    destruct (construct_in_order g (attributes kw) (State (validated h kw) w tr))
      as (evs & Htr & Hord).
    exists evs. split; [ exact Htr | ]. split; [ exact Hord | ].
    intros L HL.
    destruct (run (Lark.construct g (attributes kw)) (State (validated h kw) w tr))
      as [r s'] eqn:Hc.
    simpl in HL, Htr. subst r.
    apply construct_success in Hc as (text & w1 & w2 & _ & _ & _ & _ & _ & Hrest).
    unfold call_budget. destruct (LarkOptions.only_lex (attributes kw)).
    + destruct Hrest as (_ & _ & _ & ->). simpl in Htr.
      apply app_inv_head in Htr. by subst evs.
    + destruct Hrest as (n & c & eng & b & rules' & cb & p & w3 & w4 & w5 & w6
                         & _ & _ & _ & _ & _ & _ & _ & _ & _ & ->).
      simpl in Htr. apply app_inv_head in Htr. by subst evs.
  - exists []. rewrite app_nil_r. split; [ done | ].
    split; [ apply in_order_stop; lia | ]. intros L HL. discriminate HL.
Qed.

(** ** What a returned [Lark] went through *)

(** A run of [Lark.__init__] that returns: the options were legal, and the
    rest of the body returned on them. *)
Lemma Lark_init_returns `{Collaborators} (g : grammar_arg) (kw : pydict)
    h w tr (L : Lark.t) :
  (run (Lark.__init__ g kw) (State h w tr)).1 = Return L ->
  legal kw /\
  run (Lark.construct g (attributes kw)) (State (validated h kw) w tr)
  = (Return L, (run (Lark.__init__ g kw) (State h w tr)).2).
Proof.
  intros HL. pose proof (accepted_verdict _ _ _ _ HL) as Hv.
  apply verdict_legal in Hv as [Hlegal Ho]. split; [ exact Hlegal | ].
  rewrite (Lark_init_legal g kw h w tr Hlegal) in HL |- *.
  destruct (run (Lark.construct g (attributes kw)) _) as [r s']. simpl in *.
  by subst r.
Qed.

(** X5.  A [Lark] built with a true-valued [only_lex] has a lexer and
    nothing else: no engine, no tree builder, no parser, only
    [load_grammar] and [Lexer] were called; and [parse] on it raises
    [AssertionError] for every text, without calling the lexer and leaving
    the state as it was. *)
Theorem X5_only_lex_builds_no_parser `{Collaborators}
    (g : grammar_arg) (kw : pydict) (s : state) (L : Lark.t) :
  (run (Lark.__init__ g kw) s).1 = Return L ->
  truthy (option_value kw "only_lex" (VBool false)) = true ->
  Lark.parser_engine L = None /\ Lark.parse_tree_builder L = None /\
  Lark.parser L = None /\
  (exists text,
     grammar_text g = Some text /\
     trace (run (Lark.__init__ g kw) s).2
     = trace s ++ [CallLoadGrammar text;
                   CallLexer (lexer_patterns (Lark.tokens L)) ∅
                             (lexer_ignore (Lark.tokens L))]) /\
  forall text s1, run (Lark.parse L text) s1 = (Raise AssertionError, s1).
Proof.
  intros HL Honly. destruct s as [h w tr].
  apply Lark_init_returns in HL as [Hlegal Hc].
  apply construct_success in Hc
    as (text & w1 & w2 & Htext & _ & Ho & _ & _ & Hrest).
  assert (Hol : LarkOptions.only_lex (attributes kw) = true) by exact Honly.
  rewrite Hol in Hrest. destruct Hrest as (Hpe & Hptb & Hp & Hs).
  repeat (split; [ done | ]). split.
  - exists text. split; [ done | ]. by rewrite Hs.
  - intros text' s1. unfold Lark.parse. rewrite Ho, Hol. reflexivity.
Qed.

Lemma X5_witness :
  let kw : pydict := <["only_lex" := VBool true]> Demo.kw_lalr in
  exists L,
    (run (Lark.__init__ (H:=Demo.collaborators) Demo.grammar kw) Demo.boot).1
    = Return L /\
    Lark.parser_engine L = None /\ Lark.parse_tree_builder L = None /\
    Lark.parser L = None /\
    (exists text,
       grammar_text Demo.grammar = Some text /\
       trace (run (Lark.__init__ Demo.grammar kw) Demo.boot).2
       = trace Demo.boot ++ [CallLoadGrammar text;
                             CallLexer (lexer_patterns (Lark.tokens L)) ∅
                                       (lexer_ignore (Lark.tokens L))]) /\
    forall text s1, run (Lark.parse L text) s1 = (Raise AssertionError, s1).
Proof.
  eexists. split; [ vm_compute; reflexivity | ].
  apply (X5_only_lex_builds_no_parser (H:=Demo.collaborators)
           Demo.grammar (<["only_lex" := VBool true]> Demo.kw_lalr) Demo.boot);
    reflexivity.
Defined.

(** X6.  A [Lark] returned with [only_lex] false-valued was built in six
    calls, each in the world the one before left: [load_grammar] on the
    grammar text; [Lexer]; the class [ENGINE_DICT] holds for the [parser]
    option, instantiated; [ParseTreeBuilder] on the [tree_class] option
    (default [Tree]); [create_tree_builder] on the loaded rules and the
    [transformer] option (default [None]); [build_parser] on the rules and
    callback that [create_tree_builder] returned and the [start] option
    (default "start").  The object keeps what the calls returned. *)
Theorem X6_construction_pipeline `{Collaborators}
    (g : grammar_arg) (kw : pydict) (s : state) (L : Lark.t) :
  (run (Lark.__init__ g kw) s).1 = Return L ->
  truthy (option_value kw "only_lex" (VBool false)) = false ->
  exists text defs rules lx name cls eng b rules' cb p w1 w2 w3 w4 w5 w6,
    grammar_text g = Some text /\
    engine_name kw = VStr name /\ ENGINE_DICT !! name = Some cls /\
    load_grammar text (world s) = (Return (defs, rules), w1) /\
    Lexer (lexer_patterns defs) ∅ (lexer_ignore defs) w1 = (Return lx, w2) /\
    engine_new cls w2 = (Return eng, w3) /\
    ParseTreeBuilder (option_value kw "tree_class" Tree) w3 = (Return b, w4) /\
    create_tree_builder b rules (option_value kw "transformer" VNone) w4
      = (Return (rules', cb), w5) /\
    build_parser eng rules' cb (option_value kw "start" (VStr "start")) w5
      = (Return p, w6) /\
    L = Lark.mk (attributes kw) defs rules lx (Some eng) (Some b) (Some p) /\
    world (run (Lark.__init__ g kw) s).2 = w6 /\
    trace (run (Lark.__init__ g kw) s).2
    = trace s ++
      [CallLoadGrammar text;
       CallLexer (lexer_patterns defs) ∅ (lexer_ignore defs);
       CallEngine cls;
       CallParseTreeBuilder (option_value kw "tree_class" Tree);
       CallCreateTreeBuilder b rules (option_value kw "transformer" VNone);
       CallBuildParser eng rules' cb (option_value kw "start" (VStr "start"))].
Proof.
  intros HL Honly. destruct s as [h w tr].
  apply Lark_init_returns in HL as [Hlegal Hc].
  apply construct_success in Hc
    as (text & w1 & w2 & Htext & _ & Ho & Hload & Hlex & Hrest).
  assert (Hol : LarkOptions.only_lex (attributes kw) = false) by exact Honly.
  rewrite Hol in Hrest.
  destruct Hrest as (name & cls & eng & b & rules' & cb & p & w3 & w4 & w5 & w6
                     & Hname & Hcls & Heng & Hb & Hcb & Hbuild
                     & Hpe & Hptb & Hp & Hs).
  exists text, (Lark.tokens L), (Lark.rules L), (Lark.lexer L),
         name, cls, eng, b, rules', cb, p, w1, w2, w3, w4, w5, w6.
  rewrite Hs. simpl.
  repeat (split; [ done | ]).
  split; [ | done ].
  destruct L as [o defs rules lx pe ptb pp]. simpl in *. by subst.
Qed.

Section X6_run.
Local Existing Instance Demo.collaborators.

Lemma X6_witness :
  exists L : Lark.t,
    (run (Lark.__init__ Demo.grammar Demo.kw_lalr_transformer) Demo.boot).1
    = Return L /\
    exists text defs rules lx name cls eng b rules' cb p w1 w2 w3 w4 w5 w6,
      grammar_text Demo.grammar = Some text /\
      engine_name Demo.kw_lalr_transformer = VStr name /\
      ENGINE_DICT !! name = Some cls /\
      load_grammar text (world Demo.boot) = (Return (defs, rules), w1) /\
      Lexer (lexer_patterns defs) ∅ (lexer_ignore defs) w1 = (Return lx, w2) /\
      engine_new cls w2 = (Return eng, w3) /\
      ParseTreeBuilder (option_value Demo.kw_lalr_transformer "tree_class" Tree) w3
        = (Return b, w4) /\
      create_tree_builder b rules
        (option_value Demo.kw_lalr_transformer "transformer" VNone) w4
        = (Return (rules', cb), w5) /\
      build_parser eng rules' cb
        (option_value Demo.kw_lalr_transformer "start" (VStr "start")) w5
        = (Return p, w6) /\
      L = Lark.mk (attributes Demo.kw_lalr_transformer) defs rules lx
                  (Some eng) (Some b) (Some p) /\
      world (run (Lark.__init__ Demo.grammar Demo.kw_lalr_transformer) Demo.boot).2
      = w6 /\
      trace (run (Lark.__init__ Demo.grammar Demo.kw_lalr_transformer) Demo.boot).2
      = trace Demo.boot ++
        [CallLoadGrammar text;
         CallLexer (lexer_patterns defs) ∅ (lexer_ignore defs);
         CallEngine cls;
         CallParseTreeBuilder (option_value Demo.kw_lalr_transformer "tree_class" Tree);
         CallCreateTreeBuilder b rules
           (option_value Demo.kw_lalr_transformer "transformer" VNone);
         CallBuildParser eng rules' cb
           (option_value Demo.kw_lalr_transformer "start" (VStr "start"))].
Proof.
  eexists. split; [ vm_compute; reflexivity | ].
  apply (X6_construction_pipeline Demo.grammar Demo.kw_lalr_transformer Demo.boot);
    reflexivity.
Defined.

End X6_run.

(** ** Where an exception of the constructor comes from *)

Section Provenance.
Context `{Collaborators}.

Lemma run_bind_raise_inv {A B} (m : M A) (k : A -> M B) s e s' :
  run (bind m k) s = (Raise e, s') ->
  run m s = (Raise e, s') \/
  exists a s1, run m s = (Return a, s1) /\ run (k a) s1 = (Raise e, s').
Proof.
  rewrite run_bind_eq. destruct (run m s) as [[a|e0] s1]; intros Hr.
  - right. eauto.
  - left. by simplify_eq.
Qed.

Lemma run_call_raise_inv {A} ev (f : World -> outcome A * World) h w tr e s' :
  run (call ev f) (State h w tr) = (Raise e, s') ->
  exists w', f w = (Raise e, w') /\ s' = State h w' (tr ++ [ev]).
Proof.
  rewrite run_call. destruct (f w) as [r w']. simpl. intros Hr.
  simplify_eq. eauto.
Qed.

Lemma run_assert_raise_inv c s e s' :
  run (assert c) s = (Raise e, s') -> c = false /\ e = AssertionError /\ s' = s.
Proof.
  destruct c; unfold run, assert, ret, raise; intros Hr; simplify_eq; done.
Qed.

Lemma run_when_raise_raise_inv c e0 s e s' :
  run (when c (raise e0)) s = (Raise e, s') -> c = true /\ e = e0 /\ s' = s.
Proof.
  destruct c; unfold run, when, ret, raise; intros Hr; simplify_eq; done.
Qed.

Lemma run_getitem_registered name s :
  registered name ->
  exists n cls, name = VStr n /\ ENGINE_DICT !! n = Some cls /\
                run (Lark.ENGINE_DICT_getitem name) s = (Return cls, s).
Proof.
  unfold registered, LarkOptions.in_ENGINE_DICT, Lark.ENGINE_DICT_getitem.
  destruct name as [| | |n|]; try (intros Hr; discriminate Hr).
  intros [cls Hcls]%bool_decide_eq_true_1. exists n, cls. by rewrite Hcls.
Qed.

(** The calls [evs], which all returned, checked one by one. *)
Lemma returned_nil (w : World) :
  forall i ev', ([] : list event) !! i = Some ev' ->
    call_raises ev' (replay (take i []) w) = None.
Proof. intros i ev' Hi. by rewrite lookup_nil in Hi. Qed.

Lemma returned_snoc (evs : list event) (ev : event) (w : World) :
  (forall i ev', evs !! i = Some ev' ->
     call_raises ev' (replay (take i evs) w) = None) ->
  call_raises ev (replay evs w) = None ->
  forall i ev', (evs ++ [ev]) !! i = Some ev' ->
    call_raises ev' (replay (take i (evs ++ [ev])) w) = None.
Proof.
  intros Hevs Hev i ev' Hi.
  destruct (decide (i < length evs)) as [Hlt|Hge].
  - rewrite lookup_app_l in Hi by done.
    rewrite take_app_le by lia. by apply Hevs.
  - rewrite lookup_app_r in Hi by lia.
    destruct (i - length evs) as [|k] eqn:Hk; [ | by destruct k ].
    simpl in Hi. injection Hi as <-.
    assert (i = length evs) as -> by lia.
    rewrite take_app_length. exact Hev.
Qed.

Lemma replay_snoc (evs : list event) (ev : event) (w : World) :
  replay (evs ++ [ev]) w = call_world ev (replay evs w).
Proof. unfold replay. by rewrite foldl_app. Qed.

(** The body after validation raises for one of three reasons: the grammar
    argument, [cache_grammar], or a collaborator that raised; the lookup in
    [ENGINE_DICT] cannot fail once the name is registered. *)
Lemma construct_raises g o h w tr e s' :
  registered (LarkOptions.parser o) ->
  run (Lark.construct g o) (State h w tr) = (Raise e, s') ->
  (grammar_raises g e /\ s' = State h w tr) \/
  (is_Some (grammar_text g) /\ truthy (LarkOptions.cache_grammar o) = true /\
   e = NotImplementedError (Plain "Not available yet") /\ s' = State h w tr) \/
  blames (State h w tr) s' e.
Proof.
  intros Hreg Hr. rewrite construct_grammar in Hr.
  destruct (grammar_result g) as [text|e0] eqn:Hg.
  2:{ left. unfold run, raise in Hr. simplify_eq.
      split; [ by apply grammar_raises_result | done ]. }
  apply grammar_text_result in Hg.
  rewrite construct_GString in Hr.
  apply run_bind_raise_inv in Hr as [Hr | (u1 & s1 & Ha & Hr)];
    [ apply run_assert_raise_inv in Hr as (Hs & _); discriminate Hs | ].
  apply run_assert_inv in Ha as [_ ->].
  apply run_bind_raise_inv in Hr as [Hr | (u2 & s2 & Hc & Hr)].
  { apply run_when_raise_raise_inv in Hr as (Hc & -> & ->). right. left.
    by repeat split; eauto. }
  apply run_when_raise_inv in Hc as [Hc ->].
  right. right. unfold blames. simpl.
  apply run_bind_raise_inv in Hr as [Hr | ([defs rules] & s3 & Hload & Hr)].
  { apply run_call_raise_inv in Hr as (w1 & Hload & ->).
    exists [], (CallLoadGrammar text). simpl. rewrite Hload. simpl.
    repeat split; try done; try lia. }
  apply run_call_inv in Hload as (w1 & Hload & ->).
  set (ev1 := CallLoadGrammar text) in *.
  assert (H1 : forall i ev', [ev1] !! i = Some ev' ->
            call_raises ev' (replay (take i [ev1]) w) = None).
  { apply (returned_snoc [] ev1 w (returned_nil w)). simpl. by rewrite Hload. }
  assert (W1 : replay [ev1] w = w1) by (simpl; by rewrite Hload).
  apply run_bind_raise_inv in Hr as [Hr | (lx & s4 & Hlex & Hr)].
  { unfold Lark._build_lexer in Hr.
    destruct (Lark._build_lexer_loop defs [] []) as [ig tk].
    apply run_call_raise_inv in Hr as (w2 & Hlex & ->).
    exists [ev1], (CallLexer tk ∅ ig). rewrite W1. simpl. rewrite Hlex. simpl.
    rewrite <- app_assoc. repeat split; try done; try lia. }
  unfold Lark._build_lexer in Hlex.
  destruct (Lark._build_lexer_loop defs [] []) as [ig tk].
  apply run_call_inv in Hlex as (w2 & Hlex & ->).
  set (ev2 := CallLexer tk ∅ ig) in *.
  assert (H2 : forall i ev', [ev1; ev2] !! i = Some ev' ->
            call_raises ev' (replay (take i [ev1; ev2]) w) = None).
  { apply (returned_snoc [ev1] ev2 w H1). rewrite W1. simpl. by rewrite Hlex. }
  assert (W2 : replay [ev1; ev2] w = w2).
  { rewrite (replay_snoc [ev1] ev2), W1. simpl. by rewrite Hlex. }
  destruct (LarkOptions.only_lex o); simpl in Hr; [ discriminate Hr | ].
  destruct (run_getitem_registered _ (State h w2 ((tr ++ [ev1]) ++ [ev2])) Hreg)
    as (n & cls & Hn & Hcls & Hget).
  apply run_bind_raise_inv in Hr as [Hr | (cls' & s5 & Hget' & Hr)];
    [ rewrite Hget in Hr; discriminate Hr | ].
  rewrite Hget in Hget'. injection Hget' as <- <-.
  apply run_bind_raise_inv in Hr as [Hr | (eng & s6 & Heng & Hr)].
  { apply run_call_raise_inv in Hr as (w3 & Heng & ->).
    exists [ev1; ev2], (CallEngine cls). rewrite W2. simpl. rewrite Heng. simpl.
    rewrite <- !app_assoc. repeat split; try done; try lia. }
  apply run_call_inv in Heng as (w3 & Heng & ->).
  set (ev3 := CallEngine cls) in *.
  assert (H3 : forall i ev', [ev1; ev2; ev3] !! i = Some ev' ->
            call_raises ev' (replay (take i [ev1; ev2; ev3]) w) = None).
  { apply (returned_snoc [ev1; ev2] ev3 w H2). rewrite W2. simpl. by rewrite Heng. }
  assert (W3 : replay [ev1; ev2; ev3] w = w3).
  { rewrite (replay_snoc [ev1; ev2] ev3), W2. simpl. by rewrite Heng. }
  apply run_bind_raise_inv in Hr as [Hr | (b & s7 & Hb & Hr)].
  { apply run_call_raise_inv in Hr as (w4 & Hb & ->).
    exists [ev1; ev2; ev3], (CallParseTreeBuilder (LarkOptions.tree_class o)).
    rewrite W3. simpl. rewrite Hb. simpl.
    rewrite <- !app_assoc. repeat split; try done; try lia. }
  apply run_call_inv in Hb as (w4 & Hb & ->).
  set (ev4 := CallParseTreeBuilder (LarkOptions.tree_class o)) in *.
  assert (H4 : forall i ev', [ev1; ev2; ev3; ev4] !! i = Some ev' ->
            call_raises ev' (replay (take i [ev1; ev2; ev3; ev4]) w) = None).
  { apply (returned_snoc [ev1; ev2; ev3] ev4 w H3). rewrite W3. simpl.
    by rewrite Hb. }
  assert (W4 : replay [ev1; ev2; ev3; ev4] w = w4).
  { rewrite (replay_snoc [ev1; ev2; ev3] ev4), W3. simpl. by rewrite Hb. }
  apply run_bind_raise_inv in Hr as [Hr | (p & s8 & Hp & Hr)];
    [ | discriminate Hr ].
  unfold Lark._build_parser in Hr.
  apply run_bind_raise_inv in Hr as [Hr | ([rules' cb] & s9 & Hcb & Hr)].
  { apply run_call_raise_inv in Hr as (w5 & Hcb & ->).
    exists [ev1; ev2; ev3; ev4],
           (CallCreateTreeBuilder b rules (LarkOptions.transformer o)).
    rewrite W4. simpl. rewrite Hcb. simpl.
    rewrite <- !app_assoc. repeat split; try done; try lia. }
  apply run_call_inv in Hcb as (w5 & Hcb & ->).
  set (ev5 := CallCreateTreeBuilder b rules (LarkOptions.transformer o)) in *.
  assert (H5 : forall i ev', [ev1; ev2; ev3; ev4; ev5] !! i = Some ev' ->
            call_raises ev' (replay (take i [ev1; ev2; ev3; ev4; ev5]) w) = None).
  { apply (returned_snoc [ev1; ev2; ev3; ev4] ev5 w H4). rewrite W4. simpl.
    by rewrite Hcb. }
  assert (W5 : replay [ev1; ev2; ev3; ev4; ev5] w = w5).
  { rewrite (replay_snoc [ev1; ev2; ev3; ev4] ev5), W4. simpl. by rewrite Hcb. }
  apply run_call_raise_inv in Hr as (w6 & Hbuild & ->).
  exists [ev1; ev2; ev3; ev4; ev5],
         (CallBuildParser eng rules' cb (LarkOptions.start o)).
  rewrite W5. simpl. rewrite Hbuild. simpl.
  rewrite <- !app_assoc. repeat split; try done; try lia.
Qed.

End Provenance.

(** X7.  An exception that leaves [Lark(grammar, **kw)] is one of four
    things, and nothing else: the exception of the option validation, with
    no collaborator called; an exception drawn by the grammar argument
    ([TypeError] from [hash] or [os.path.basename], the exception of
    [read()], [AssertionError] for what is no string), again with nothing
    called; the [NotImplementedError] for [cache_grammar]; or, unchanged,
    the exception that the last collaborator called has raised, in the world
    the calls before it left.  In particular
    [ENGINE_DICT[self.options.parser]] never raises: the validation has
    asserted the key. *)
Theorem X7_constructor_exceptions `{Collaborators}
    (g : grammar_arg) (kw : pydict) (s : state) (e : exn) :
  (run (Lark.__init__ g kw) s).1 = Raise e ->
  (~ legal kw /\ rejects g kw s e) \/
  (legal kw /\ grammar_raises g e /\
   trace (run (Lark.__init__ g kw) s).2 = trace s /\
   world (run (Lark.__init__ g kw) s).2 = world s) \/
  (legal kw /\ is_Some (grammar_text g) /\
   truthy (option_value kw "cache_grammar" (VBool false)) = true /\
   e = NotImplementedError (Plain "Not available yet") /\
   trace (run (Lark.__init__ g kw) s).2 = trace s /\
   world (run (Lark.__init__ g kw) s).2 = world s) \/
  (legal kw /\ blames s (run (Lark.__init__ g kw) s).2 e).
Proof.
  intros Hr. destruct (verdict kw) as [o|e0] eqn:Hv.
  - apply verdict_legal in Hv as [Hlegal ->]. right.
    destruct s as [h w tr]. rewrite (Lark_init_legal g kw h w tr Hlegal) in Hr |- *.
    destruct (run (Lark.construct g (attributes kw)) (State (validated h kw) w tr))
      as [r s'] eqn:Hc.
    simpl in Hr. subst r.
    apply construct_raises in Hc; [ | apply Hlegal ].
    destruct Hc as [(Hg & ->) | [(Hg & Hc & -> & ->) | Hb]].
    + left. split; [ exact Hlegal | by repeat split ].
    + right. left. split; [ exact Hlegal | by repeat split ].
    + right. right. split; [ exact Hlegal | exact Hb ].
  - left. pose proof (rejects_of_verdict g kw s e0 Hv) as Hrej.
    assert (e = e0) as ->.
    { destruct Hrej as [Hr0 _]. rewrite Hr0 in Hr. by injection Hr. }
    split; [ | exact Hrej ].
    intros Hlegal. apply verdict_legal in Hlegal. rewrite Hlegal in Hv.
    discriminate Hv.
Qed.

Section X7_run.
Local Existing Instance Demo.collaborators.

Lemma X7_witness :
  let e := Foreign "GrammarError" 0 in
  let g := GString EmptyString in
  let r := run (Lark.__init__ g Demo.kw_lalr) Demo.boot in
  (~ legal Demo.kw_lalr /\ rejects g Demo.kw_lalr Demo.boot e) \/
  (legal Demo.kw_lalr /\ grammar_raises g e /\
   trace r.2 = trace Demo.boot /\ world r.2 = world Demo.boot) \/
  (legal Demo.kw_lalr /\ is_Some (grammar_text g) /\
   truthy (option_value Demo.kw_lalr "cache_grammar" (VBool false)) = true /\
   e = NotImplementedError (Plain "Not available yet") /\
   trace r.2 = trace Demo.boot /\ world r.2 = world Demo.boot) \/
  (legal Demo.kw_lalr /\ blames Demo.boot r.2 e).
Proof.
  apply (X7_constructor_exceptions (GString EmptyString) Demo.kw_lalr Demo.boot).
  vm_compute. reflexivity.
Defined.

End X7_run.

(** ** The [debug] option *)

Section Debug.
Context `{Collaborators}.

Lemma verdict_insert_debug (kw : pydict) (v : val) :
  verdict (<["debug" := v]> kw) =
  match verdict kw with
  | Return o => Return (with_debug (truthy v) o)
  | Raise e => Raise e
  end.
Proof.
  unfold verdict, option_value.
  assert (Hrest : unpopped (<["debug" := v]> kw) = unpopped kw).
  { unfold unpopped, LarkOptions.names. simpl. by rewrite delete_insert_eq. }
  rewrite Hrest, lookup_insert_eq.
  repeat (rewrite lookup_insert_ne by done).
  destruct (negb _); [ done | ].
  destruct (_ && _); [ done | ].
  destruct (truthy (default (VBool false) (kw !! "keep_all_tokens"))); [ done | ].
  destruct (negb _); done.
Qed.

Lemma mirrors_bind {A B C} (f : C -> B) (m : M A)
    (k1 : A -> M B) (k2 : A -> M C) :
  mirrors id m m -> (forall a, mirrors f (k1 a) (k2 a)) ->
  mirrors f (bind m k1) (bind m k2).
Proof.
  intros Hm Hk h1 h2 w tr. rewrite !run_bind_eq.
  destruct (Hm h1 h2 w tr) as (Hr & Hw & Ht).
  destruct (run m (State h1 w tr)) as [r1 [h1' w1 tr1]],
           (run m (State h2 w tr)) as [r2 [h2' w2 tr2]].
  simpl in Hr, Hw, Ht. subst w2 tr2.
  destruct r2 as [a|e]; subst r1; [ apply Hk | done ].
Qed.

Lemma mirrors_silent {A B} (f : B -> A) (r1 : outcome A) (r2 : outcome B) :
  r1 = match r2 with Return b => Return (f b) | Raise e => Raise e end ->
  mirrors f (lift r1) (lift r2).
Proof. by intros Hr h1 h2 w tr. Qed.

Lemma mirrors_call {A} ev (f : World -> outcome A * World) :
  mirrors id (call ev f) (call ev f).
Proof.
  intros h1 h2 w tr. rewrite !run_call. simpl. by destruct (f w) as [[a|e] w'].
Qed.

Lemma mirrors_assert c : mirrors id (assert c) (assert c).
Proof. by destruct c. Qed.

Lemma mirrors_when_raise c e : mirrors id (when c (raise e)) (when c (raise e)).
Proof. by destruct c. Qed.

Lemma mirrors_getitem name :
  mirrors id (Lark.ENGINE_DICT_getitem name) (Lark.ENGINE_DICT_getitem name).
Proof.
  unfold Lark.ENGINE_DICT_getitem.
  destruct name as [| | |n|]; try done. by destruct (ENGINE_DICT !! n).
Qed.

Lemma mirrors__build_parser o b rules ptb eng :
  mirrors id (Lark._build_parser (with_debug b o) rules ptb eng)
             (Lark._build_parser o rules ptb eng).
Proof.
  unfold Lark._build_parser. simpl.
  apply mirrors_bind; [ apply mirrors_call | intros [rules' cb] ].
  apply mirrors_call.
Qed.

(** The body after validation does not look at the heap, nor at [debug]. *)
Lemma construct_with_debug (g : grammar_arg) (o : LarkOptions.t) (b : bool) :
  mirrors (Lark_with_debug b) (Lark.construct g (with_debug b o))
          (Lark.construct g o).
Proof.
  rewrite !construct_grammar.
  destruct (grammar_result g) as [text|e]; [ rewrite !construct_GString | done ].
  simpl.
  apply mirrors_bind; [ apply (mirrors_assert true) | intros _ ].
  apply mirrors_bind; [ apply mirrors_when_raise | intros _ ].
  apply mirrors_bind; [ apply mirrors_call | intros [defs rules] ].
  apply mirrors_bind; [ | intros lx ].
  { unfold Lark._build_lexer. destruct (Lark._build_lexer_loop defs [] []).
    apply mirrors_call. }
  destruct (LarkOptions.only_lex o); simpl; [ done | ].
  apply mirrors_bind; [ apply mirrors_getitem | intros cls ].
  apply mirrors_bind; [ apply mirrors_call | intros eng ].
  apply mirrors_bind; [ apply mirrors_call | intros ptb ].
  intros h1 h2 w tr. rewrite !run_bind_eq.
  destruct (mirrors__build_parser o b rules ptb eng h1 h2 w tr) as (Hr & Hw & Ht).
  destruct (run (Lark._build_parser (with_debug b o) rules ptb eng) (State h1 w tr))
    as [r1 [h1' w1 tr1]],
    (run (Lark._build_parser o rules ptb eng) (State h2 w tr))
    as [r2 [h2' w2 tr2]].
  simpl in Hr, Hw, Ht. subst w2 tr2. by destruct r2 as [p|e]; subst r1.
Qed.

End Debug.

(** X9.  The [debug] option is stored and never read: giving it, or
    changing it, changes nothing but the [debug] attribute.  The same
    collaborators are called in the same worlds, the same exception is
    raised or the same [Lark] returned up to that attribute, and [parse]
    behaves the same on both. *)
Theorem X9_debug_is_never_read `{Collaborators}
    (g : grammar_arg) (kw : pydict) (v : val) (s : state) :
  let without := run (Lark.__init__ g kw) s in
  let given := run (Lark.__init__ g (<["debug" := v]> kw)) s in
  trace given.2 = trace without.2 /\
  world given.2 = world without.2 /\
  given.1 = match without.1 with
            | Return L => Return (Lark_with_debug (truthy v) L)
            | Raise e => Raise e
            end /\
  forall L text s1,
    run (Lark.parse (Lark_with_debug (truthy v) L) text) s1
    = run (Lark.parse L text) s1.
Proof.
  destruct s as [h w tr]. simpl.
  rewrite !Lark_init_options, verdict_insert_debug.
  destruct (verdict kw) as [o|e]; simpl.
  - destruct (construct_with_debug g o (truthy v)
                (validated h (<["debug" := v]> kw)) (validated h kw) w tr)
      as (Hr & Hw & Ht).
    repeat (split; [ done | ]).
    by intros [o' defs rules lx pe ptb pp] text s0.
  - repeat split.
Qed.

(** ** The lists handed to [Lexer] *)

Lemma lexer_ignore_sublist (defs : list TokenDef) :
  lexer_ignore defs `sublist_of` (lexer_patterns defs).*1.
Proof.
  unfold lexer_ignore, lexer_patterns.
  induction defs as [|[name value flags] defs IH]; [ done | ].
  rewrite filter_cons. simpl.
  destruct (decide ("ignore" ∈ flags)); simpl.
  - by apply sublist_skip.
  - by apply sublist_cons.
Qed.

(** X8.  The two lists [_build_lexer] builds keep the declaration order:
    the patterns carry the names and the values of the token
    specifications one for one, repeated names included, and the ignore
    list is a subsequence of those names, so every ignored name is the name
    of a pattern the lexer was given. *)
Theorem X8_lexer_lists_keep_declaration_order (defs : list TokenDef) :
  let '(ignore_tokens, tokens) := Lark._build_lexer_loop defs [] [] in
  tokens.*1 = td_name <$> defs /\
  tokens.*2 = td_value <$> defs /\
  ignore_tokens `sublist_of` tokens.*1 /\
  (forall name, name ∈ ignore_tokens -> exists value, (name, value) ∈ tokens).
Proof.
  rewrite _build_lexer_loop_spec. simpl.
  assert (H1 : (lexer_patterns defs).*1 = td_name <$> defs).
  { unfold lexer_patterns. rewrite <- list_fmap_compose. done. }
  assert (H2 : (lexer_patterns defs).*2 = td_value <$> defs).
  { unfold lexer_patterns. rewrite <- list_fmap_compose. done. }
  repeat (split; [ done | ]). split; [ apply lexer_ignore_sublist | ].
  intros name Hin.
  pose proof (sublist_submseteq _ _ (lexer_ignore_sublist defs)) as Hsub.
  apply (elem_of_submseteq _ _ _ Hin) in Hsub.
  apply list_elem_of_fmap in Hsub as ([n v] & -> & Hnv). eauto.
Qed.

(** ** The post-lexer *)

(** X10.  [lex] on a [Lark] built from the options [kw]: the lexer is called
    first, in the world as it is.  When that call raises, [lex] raises the
    same and the post-lexer is not called.  Otherwise, with no [postlex]
    option or a false-valued one the lexer's stream is the result; with a
    true-valued one the post-lexer is called once, on that stream and in the
    world the lexer left, and its answer is the result. *)
Theorem X10_lex_then_postlex `{Collaborators}
    (g : grammar_arg) (kw : pydict) (s : state) (L : Lark.t) :
  (run (Lark.__init__ g kw) s).1 = Return L ->
  forall text h w tr,
    let postlex := option_value kw "postlex" VNone in
    let lexed := Lexer_lex (Lark.lexer L) text w in
    let called := tr ++ [CallLex (Lark.lexer L) text] in
    run (Lark.lex L text) (State h w tr) =
    match lexed.1 with
    | Raise e => (Raise e, State h lexed.2 called)
    | Return st =>
        if truthy postlex then
          ((postlex_process postlex st lexed.2).1,
           State h (postlex_process postlex st lexed.2).2
                 (called ++ [CallPostlex postlex st]))
        else (Return st, State h lexed.2 called)
    end.
Proof.
  intros HL text h w tr. simpl.
  apply accepted_verdict, verdict_parser in HL as (_ & Hpost & _).
  unfold Lark.lex. rewrite run_bind_eq, run_call, Hpost.
  destruct (Lexer_lex (Lark.lexer L) text w) as [[st|e] w1]; simpl;
    [ | reflexivity ].
  destruct (truthy (option_value kw "postlex" VNone)); [ | reflexivity ].
  by rewrite run_call.
Qed.

Section X10_run.
Local Existing Instance Demo.collaborators.

Lemma X10_witness :
  exists L : Lark.t,
    (run (Lark.__init__ Demo.grammar Demo.kw_skip_header) Demo.boot).1 = Return L /\
    forall text h w tr,
      let postlex := option_value Demo.kw_skip_header "postlex" VNone in
      let lexed := Lexer_lex (Lark.lexer L) text w in
      let called := tr ++ [CallLex (Lark.lexer L) text] in
      run (Lark.lex L text) (State h w tr) =
      match lexed.1 with
      | Raise e => (Raise e, State h lexed.2 called)
      | Return st =>
          if truthy postlex then
            ((postlex_process postlex st lexed.2).1,
             State h (postlex_process postlex st lexed.2).2
                   (called ++ [CallPostlex postlex st]))
          else (Return st, State h lexed.2 called)
      end.
Proof.
  eexists. split; [ vm_compute; reflexivity | ].
  apply (X10_lex_then_postlex Demo.grammar Demo.kw_skip_header Demo.boot).
  reflexivity.
Defined.

End X10_run.

(** ** Validating the same dict again *)

(** X11.  An options dict can be used again: a second [LarkOptions(d)] on
    the same dict object, after a first one that returned or raised, finds
    the same items and gives the same outcome, and again leaves the dict
    as it was. *)
Theorem X11_options_dict_reusable `{Collaborators}
    (s : state) (options_dict : loc) (kw : pydict) :
  heap s !! options_dict = Some kw ->
  let first := run (LarkOptions.__init__ options_dict) s in
  let second := run (LarkOptions.__init__ options_dict) first.2 in
  heap first.2 !! options_dict = Some kw /\
  second.1 = first.1 /\
  heap second.2 !! options_dict = Some kw.
Proof.
  intros Hl. destruct s as [h w tr]. simpl in Hl. simpl.
  rewrite (LarkOptions_init_run _ _ _ _ _ Hl). simpl.
  assert (Hfresh : fresh (dom h) ≠ options_dict).
  { intros <-. apply (is_fresh (dom h)). apply elem_of_dom. eauto. }
  assert (Hl1 : <[fresh (dom h) := unpopped kw]> h !! options_dict = Some kw)
    by by rewrite lookup_insert_ne.
  split; [ exact Hl1 | ].
  rewrite (LarkOptions_init_run _ _ _ _ _ Hl1). simpl.
  split; [ reflexivity | ].
  rewrite lookup_insert_ne; [ exact Hl1 | ].
  intros <-.
  apply (is_fresh (dom (<[fresh (dom h) := unpopped kw]> h))).
  apply elem_of_dom. eauto.
Qed.

Lemma X11_witness :
  let s := @State Demo.collaborators (<[0 := Demo.kw_colour]> ∅) false [] in
  let first := run (LarkOptions.__init__ 0) s in
  let second := run (LarkOptions.__init__ 0) first.2 in
  heap first.2 !! 0 = Some Demo.kw_colour /\
  second.1 = first.1 /\
  heap second.2 !! 0 = Some Demo.kw_colour.
Proof.
  apply (X11_options_dict_reusable (H:=Demo.collaborators)). reflexivity.
Defined.
